(** * ssweb-api: the capture service of [index.js]

    A shallow embedding of the Express handlers of [index.js]
    ([/api/screenshot], [/api/screenrecord]), of [validateInput], of the
    device table and of the temp-directory sweeper [cleanupTempFiles],
    followed by the properties of the service's specification.

    Conventions.
    - Query-string values and file names are [string]s: sequences of code
      units below 256 (the Basic Latin and Latin-1 characters); text with
      other characters is not represented.
      A query parameter is an [option string]: [None] is JavaScript's
      [undefined] (the parameter is absent from the query).
    - JavaScript numbers that the code computes here are integers; they are
      modelled as [Z], exact.  [parseInt] returns [None] for [NaN].  Beyond
      2^53 JavaScript rounds to the nearest double; rounding keeps the sign
      and the order with 30, which is all [recordDuration] looks at.
    - Times ([Date.now()], [mtime.getTime()]) are milliseconds in [Z].
    - The browser engine (playwright) and the platform's [URL] parser are
      not code of this repository: they are parameters of the model.  Every
      awaited engine call settles: it resolves, or it rejects with a
      message.
    - One request is followed from its arrival to the end of its handler.
      What the rest of the system does meanwhile (other requests, the
      engine writing its video) reaches the handler only while it is
      suspended on an [await], as a change of the temporary directory. *)

From Stdlib Require Import ZArith List String Ascii Bool Lia DecimalString.
From Stdlib.Init Require Import Byte.
Import ListNotations.
Local Open Scope string_scope.
Local Open Scope Z_scope.

(** ** JavaScript values that appear in the handlers *)

#[warnings="-register-all"]
Inductive JsVal : Type :=
| JUndefined
| JNull
| JBool (b : bool)
| JNum (n : Z)
| JStr (s : string)
| JArr (items : list JsVal)
| JObj (fields : list (string * JsVal)).

(** Property lookup [o[k]] on an object literal: the first field named [k],
    [undefined] when there is none. *)
Fixpoint getField (fields : list (string * JsVal)) (k : string) : JsVal :=
  match fields with
  | [] => JUndefined
  | (k', v) :: rest => if String.eqb k' k then v else getField rest k
  end.

Definition prop (o : JsVal) (k : string) : JsVal :=
  match o with
  | JObj fields => getField fields k
  | _ => JUndefined
  end.

(** ** Strings *)

(** [Array.prototype.includes] on an array of strings. *)
Fixpoint includes (xs : list string) (x : string) : bool :=
  match xs with
  | [] => false
  | y :: ys => String.eqb y x || includes ys x
  end.

(** [Array.prototype.join]. *)
Definition join (sep : string) (xs : list string) : string :=
  String.concat sep xs.

(** [String.prototype.endsWith]. *)
Definition endsWith (s suffix : string) : bool :=
  let n := String.length s in
  let m := String.length suffix in
  (m <=? n)%nat && String.eqb (substring (n - m) m s) suffix.

(** *** [parseInt(string)] with no radix (ECMA-262, 19.2.5) *)

(** White space that [parseInt] skips ([WhiteSpace] and [LineTerminator]
    of ECMA-262), among the code units below 256: TAB, LF, VT, FF, CR, SP
    and the no-break space U+00A0. *)
Definition isWhiteSpace (c : ascii) : bool :=
  let n := nat_of_ascii c in
  ((9 <=? n) && (n <=? 13))%nat || (n =? 32)%nat || (n =? 160)%nat.

Fixpoint trimStart (s : string) : string :=
  match s with
  | String c r => if isWhiteSpace c then trimStart r else s
  | EmptyString => s
  end.

(** Value of a digit in radixes up to 36. *)
Definition digitValue (c : ascii) : option Z :=
  let n := Z.of_nat (nat_of_ascii c) in
  if (48 <=? n) && (n <=? 57) then Some (n - 48)
  else if (97 <=? n) && (n <=? 122) then Some (n - 87)
  else if (65 <=? n) && (n <=? 90) then Some (n - 55)
  else None.

(** The longest prefix of radix-[R] digits, as a number; the accumulator is
    [None] until a digit has been read. *)
Fixpoint digitsPrefix (R : Z) (s : string) (acc : option Z) : option Z :=
  match s with
  | EmptyString => acc
  | String c r =>
      match digitValue c with
      | Some d =>
          if d <? R
          then digitsPrefix R r (Some (R * match acc with Some a => a | None => 0 end + d))
          else acc
      | None => acc
      end
  end.

(** [None] is [NaN].  [-0] is [0] here: both are falsy. *)
Definition parseInt (s : string) : option Z :=
  let s1 := trimStart s in
  let '(sign, s2) :=
    match s1 with
    | String "-" r => (-1, r)
    | String "+" r => (1, r)
    | _ => (1, s1)
    end in
  let '(R, s3) :=
    match s2 with
    | String "0" (String "x" r) => (16, r)
    | String "0" (String "X" r) => (16, r)
    | _ => (10, s2)
    end in
  match digitsPrefix R s3 None with
  | Some m => Some (sign * m)
  | None => None
  end.

(** ** [validateInput] (index.js, lines 17-29) *)

Section Validation.

(** [URLparses s = true] iff [new URL(s)] returns instead of throwing:
    the platform's WHATWG parser, used without a base URL. *)
Variable URLparses : string -> bool.

Definition validDevices : list string :=
  ["phone"; "tablet"; "laptop"; "desktop"; "full"].

(** Truthiness of a string-or-undefined value: [undefined] and the empty
    string are falsy. *)
Definition truthy (v : option string) : bool :=
  match v with
  | None => false
  | Some s => negb (String.eqb s "")
  end.

(** The result is [None] for JavaScript's [null] (the input is valid) and
    [Some message] otherwise. *)
Definition validateInput (url device : option string) : option string :=
  match url with
  | None => Some "URL parameter is required"
  | Some u =>
      if negb (truthy url) then Some "URL parameter is required"
      else if negb (URLparses u) then Some "Invalid URL format"
      else
        match device with
        | Some d =>
            if truthy device && negb (includes validDevices d)
            then Some ("Invalid device. Must be one of: " ++ join ", " validDevices)
            else None
        | None => None
        end
  end.

End Validation.

(** A coarse instance of the platform parser, used to run the examples:
    without a base, [new URL(s)] needs [s] to begin with a scheme, an ASCII
    letter followed by letters, digits, [+], [-] or [.] up to a colon.
    Here a string parses when it has such a scheme and something after the
    colon. *)
Definition isAlpha (c : ascii) : bool :=
  let n := nat_of_ascii c in
  (((97 <=? n) && (n <=? 122)) || ((65 <=? n) && (n <=? 90)))%nat.

Definition isSchemeChar (c : ascii) : bool :=
  let n := nat_of_ascii c in
  (isAlpha c || ((48 <=? n) && (n <=? 57)) || (n =? 43) || (n =? 45) || (n =? 46))%nat.

Fixpoint afterScheme (s : string) : bool :=
  match s with
  | EmptyString => false
  | String c r =>
      if Ascii.eqb c ":" then negb (String.eqb r "")
      else isSchemeChar c && afterScheme r
  end.

Definition hasScheme (s : string) : bool :=
  match s with
  | String c r => isAlpha c && afterScheme r
  | EmptyString => false
  end.

(** ** The device table (index.js, lines 31-37) *)

Definition size (w h : Z) : JsVal :=
  JObj [("width", JNum w); ("height", JNum h)].

Definition deviceConfigs : JsVal :=
  JObj [ ("phone", size 375 667);
         ("tablet", size 768 1024);
         ("laptop", size 1366 768);
         ("desktop", size 1920 1080);
         ("full", JNull) ].

(** ** The recording duration (index.js, lines 90 and 117) *)

(** [const { duration = '10' } = req.query]. *)
Definition durationParam (duration : option string) : string :=
  match duration with
  | Some d => d
  | None => "10"
  end.

(** [x || 10] on a number: [NaN] and [0] are falsy. *)
Definition orTen (x : option Z) : Z :=
  match x with
  | Some n => if n =? 0 then 10 else n
  | None => 10
  end.

(** [Math.min(parseInt(duration) || 10, 30)]. *)
Definition recordDuration (duration : string) : Z :=
  Z.min (orTen (parseInt duration)) 30.

(** [Number.prototype.toString] on an integer, as used on [Date.now()]. *)
Definition numToString (n : Z) : string :=
  NilZero.string_of_int (Z.to_int n).
Arguments numToString : simpl never.

(** ** Computations that change a state and may throw *)

Inductive Result (A : Type) : Type :=
| Ok (a : A)
| Throw (message : string).
Arguments Ok {A} a.
Arguments Throw {A} message.

(** A computation over a state [S]: the state it leaves, and either a value
    or the message of the [Error] it throws. *)
Definition M (S A : Type) : Type := S -> Result A * S.

Definition ret {S A} (a : A) : M S A := fun s => (Ok a, s).

Definition throw {S A} (message : string) : M S A := fun s => (Throw message, s).

Definition bind {S A B} (m : M S A) (k : A -> M S B) : M S B :=
  fun s =>
    match m s with
    | (Ok a, s1) => k a s1
    | (Throw e, s1) => (Throw e, s1)
    end.

Declare Scope js_scope.
Delimit Scope js_scope with js.
Notation "x <- m ;; k" := (bind m (fun x => k))
  (at level 61, m at next level, right associativity) : js_scope.
Notation "m ;; k" := (bind m (fun _ => k))
  (at level 61, right associativity) : js_scope.
Local Open Scope js_scope.

Definition gets {S A} (f : S -> A) : M S A := fun s => (Ok (f s), s).

Definition modify {S} (f : S -> S) : M S unit := fun s => (Ok tt, f s).

(** [try { body } catch (err) { handler }]. *)
Definition tryCatch {S A} (body : M S A) (handler : string -> M S A) : M S A :=
  fun s =>
    match body s with
    | (Ok a, s1) => (Ok a, s1)
    | (Throw e, s1) => handler e s1
    end.

(** [try { .. } finally { fin }]: [fin] runs on both exits; when [fin]
    throws, its error replaces the pending one. *)
Definition tryFinally {S A} (body : M S A) (fin : M S unit) : M S A :=
  fun s =>
    match body s with
    | (r, s1) =>
        match fin s1 with
        | (Ok _, s2) => (r, s2)
        | (Throw e, s2) => (Throw e, s2)
        end
    end.

(** [try { body } catch (err) { handler } finally { fin }]. *)
Definition tryCatchFinally {S A}
    (body : M S A) (handler : string -> M S A) (fin : M S unit) : M S A :=
  tryFinally (tryCatch body handler) fin.

(** [xs.forEach(f)]: stops at the first [f] that throws. *)
Fixpoint forEach {S A} (xs : list A) (f : A -> M S unit) : M S unit :=
  match xs with
  | [] => ret tt
  | x :: rest => f x ;; forEach rest f
  end.

(** [xs.find(p)] with a predicate that may throw: the first element on which
    [p] is true, [undefined] ([None]) when there is none. *)
Fixpoint find {S A} (xs : list A) (p : A -> M S bool) : M S (option A) :=
  match xs with
  | [] => ret None
  | x :: rest => b <- p x ;; if b then ret (Some x) else find rest p
  end.

(** ** The process-wide state *)

(** An entry of the temporary directory.  The three flags say which of the
    [fs] calls throw on it: [statSync] on a dangling link or an unreadable
    entry, [readFileSync] on an unreadable one, [unlinkSync] on a
    subdirectory or a protected entry. *)
Record File : Type := mkFile {
  mtime : Z;
  content : list byte;
  statThrows : bool;
  readThrows : bool;
  unlinkThrows : bool
}.

(** The directory [tempDir], in the order [readdirSync] lists it. *)
Definition Dir : Type := list (string * File).

(** The calls made on the browser engine, with their arguments. *)
Inductive Call : Type :=
| Launch (options : JsVal)
| BrowserNewPage
| BrowserNewContext (options : JsVal)
| ContextNewPage
| SetViewportSize (viewportSize : JsVal)
| Goto (url : option string) (options : JsVal)
| WaitForTimeout (ms : Z)
| Screenshot (options : JsVal)
| ContextClose
| BrowserClose (pid : nat)
| SetTimeout (ms : Z).

Record World : Type := mkWorld {
  tempDir : Dir;
  clock : Z;               (* Date.now() *)
  procs : list nat;        (* the browser processes that are running *)
  trace : list Call        (* the engine calls made so far, oldest first *)
}.

(** What is outside the handler: the engine and whatever else runs while
    the handler is suspended on an [await].  The first four fields are
    functions of the calls made so far and of the call being awaited.  The
    last one is the value of [path.join(__dirname, 'temp')], the absolute
    path of the temporary directory, which depends on where the module is
    installed. *)
Record Env : Type := mkEnv {
  rejects : list Call -> Call -> option string;  (* the promise rejects, with this message *)
  elapsed : list Call -> Call -> Z;              (* time that passes *)
  disturb : list Call -> Call -> Dir -> Dir;     (* what happens to [tempDir] meanwhile *)
  screenshotData : list Call -> list byte;       (* the buffer [page.screenshot] resolves to *)
  tempDirPath : string                           (* the constant [tempDir] of line 12 *)
}.

Definition lookupFile (d : Dir) (name : string) : option File :=
  match List.find (fun e => String.eqb (fst e) name) d with
  | Some e => Some (snd e)
  | None => None
  end.

(** Removal of the first entry named [name]. *)
Fixpoint removeFile (d : Dir) (name : string) : Dir :=
  match d with
  | [] => []
  | e :: rest => if String.eqb (fst e) name then rest else e :: removeFile rest name
  end.

Definition setTempDir (d : Dir) (w : World) : World :=
  mkWorld d (clock w) (procs w) (trace w).

Module Fs.

(** [fs.readdirSync(tempDir)].  The directory is created at start-up
    (lines 12-15) and is taken to stay listable. *)
Definition readdirSync : M World (list string) :=
  gets (fun w => map fst (tempDir w)).

(** [fs.statSync(path.join(tempDir, file)).mtime.getTime()]. *)
Definition statSync (file : string) : M World Z :=
  d <- gets tempDir ;;
  match lookupFile d file with
  | None => throw ("ENOENT: no such file or directory, stat " ++ file)
  | Some f =>
      if statThrows f then throw ("EACCES: permission denied, stat " ++ file)
      else ret (mtime f)
  end.

(** [fs.readFileSync(path.join(tempDir, file))]. *)
Definition readFileSync (file : string) : M World (list byte) :=
  d <- gets tempDir ;;
  match lookupFile d file with
  | None => throw ("ENOENT: no such file or directory, open " ++ file)
  | Some f =>
      if readThrows f then throw ("EACCES: permission denied, open " ++ file)
      else ret (content f)
  end.

(** [fs.unlinkSync(path.join(tempDir, file))]. *)
Definition unlinkSync (file : string) : M World unit :=
  d <- gets tempDir ;;
  match lookupFile d file with
  | None => throw ("ENOENT: no such file or directory, unlink " ++ file)
  | Some f =>
      if unlinkThrows f then throw ("EPERM: operation not permitted, unlink " ++ file)
      else modify (setTempDir (removeFile d file))
  end.

End Fs.

Definition dateNow : M World Z := gets clock.

(** ** The retention sweeper (index.js, lines 39-54) *)

Definition thirtyMinutes : Z := 30 * 60 * 1000.

Definition cleanupTempFiles : M World unit :=
  now <- dateNow ;;
  tryCatch
    (files <- Fs.readdirSync ;;
     forEach files (fun file =>
       mt <- Fs.statSync file ;;
       if now - mt >? thirtyMinutes then Fs.unlinkSync file else ret tt))
    (fun _ => ret tt).

(** [setInterval(cleanupTempFiles, 30 * 60 * 1000)]: the period between two
    sweeps. *)
Definition sweepInterval : Z := 30 * 60 * 1000.

(** ** The state of one request *)

Inductive Body : Type :=
| Json (value : JsVal)
| Buffer (data : list byte).

(** What the client receives. *)
Record Response : Type := mkResponse {
  status : Z;
  responseHeaders : list (string * string);
  body : Body
}.

(** Express's [res]: the status code and headers set so far, and the
    response once it has been sent. *)
Record Res : Type := mkRes {
  statusCode : Z;
  headers : list (string * string);
  sent : option Response
}.

(** The process-wide state together with what belongs to the request being
    handled: its [res] and the handler's variables [browser] and [context]
    ([None] while they are [undefined]). *)
Record Handling : Type := mkHandling {
  world : World;
  res : Res;
  browser : option nat;
  context : option unit
}.

Record Query : Type := mkQuery {
  q_url : option string;
  q_device : option string;
  q_duration : option string
}.

Definition start (w : World) : Handling :=
  mkHandling w (mkRes 200 [] None) None None.

Definition setWorld (w : World) (s : Handling) : Handling :=
  mkHandling w (res s) (browser s) (context s).

Definition setRes (r : Res) (s : Handling) : Handling :=
  mkHandling (world s) r (browser s) (context s).

Definition setBrowser (pid : nat) (s : Handling) : Handling :=
  mkHandling (world s) (res s) (Some pid) (context s).

Definition setContext (s : Handling) : Handling :=
  mkHandling (world s) (res s) (browser s) (Some tt).

(** A synchronous step on the process-wide state, inside a handler. *)
Definition inWorld {A} (m : M World A) : M Handling A :=
  fun s =>
    match m (world s) with
    | (r, w) => (r, setWorld w s)
    end.

(** *** Express's [res] *)

Definition headersSent : string := "Cannot set headers after they are sent to the client".

Definition resStatus (code : Z) : M Handling unit :=
  modify (fun s => setRes (mkRes code (headers (res s)) (sent (res s))) s).

Definition putHeader (name value : string) (hs : list (string * string)) : list (string * string) :=
  filter (fun h => negb (String.eqb (fst h) name)) hs ++ [(name, value)].

Definition resSetHeader (name value : string) : M Handling unit :=
  r <- gets res ;;
  match sent r with
  | Some _ => throw headersSent
  | None => modify (setRes (mkRes (statusCode r) (putHeader name value (headers r)) (sent r)))
  end.

Definition resSend (body : Body) : M Handling unit :=
  r <- gets res ;;
  match sent r with
  | Some _ => throw headersSent
  | None =>
      modify (setRes (mkRes (statusCode r) (headers r)
                            (Some (mkResponse (statusCode r) (headers r) body))))
  end.

Definition hasHeader (name : string) (hs : list (string * string)) : bool :=
  existsb (fun h => String.eqb (fst h) name) hs.

Definition resJson (value : JsVal) : M Handling unit :=
  r <- gets res ;;
  (if hasHeader "Content-Type" (headers r) then ret tt
   else resSetHeader "Content-Type" "application/json; charset=utf-8") ;;
  resSend (Json value).

(** What the client received, once something has been sent. *)
Definition response (s : Handling) : option Response := sent (res s).

(** ** The handlers (index.js, lines 56-149) *)

Definition freshPid (ps : list nat) : nat := S (list_max ps).

Definition removePid (pid : nat) (ps : list nat) : list nat :=
  filter (fun p => negb (Nat.eqb p pid)) ps.

Definition quote : string := String (ascii_of_nat 34) EmptyString.

(** [const { device = 'desktop' } = req.query]. *)
Definition deviceParam (device : option string) : string :=
  match device with
  | Some d => d
  | None => "desktop"
  end.

Definition launchOptions : JsVal :=
  JObj [ ("headless", JBool true);
         ("args", JArr [JStr "--no-sandbox"; JStr "--disable-setuid-sandbox"]) ].

Definition gotoOptions : JsVal :=
  JObj [ ("waitUntil", JStr "networkidle"); ("timeout", JNum 30000) ].

Definition screenshotOptions (device : string) : JsVal :=
  JObj [ ("type", JStr "png");
         ("fullPage", JBool (String.eqb device "full"));
         ("animations", JStr "disabled") ].

(** The options of [browser.newContext] (lines 104-109); [dir] is the
    constant [tempDir]. *)
Definition recordVideoOptions (dir device : string) : JsVal :=
  JObj [ ("recordVideo",
          JObj [ ("dir", JStr dir);
                 ("size", if negb (String.eqb device "full")
                          then prop deviceConfigs device
                          else size 1920 1080) ]) ].

Definition errorBody (category message : string) : JsVal :=
  JObj [ ("status", JNum 500);
         ("success", JStr "false");
         ("creator", JStr "GiftedTech");
         ("error", JStr category);
         ("message", JStr message) ].

Section Handlers.

Variable URLparses : string -> bool.
Variable env : Env.

(** The handler is suspended on call [c]: the call is logged, time passes
    and the rest of the system may touch [tempDir]. *)
Definition suspend (c : Call) : M Handling unit :=
  modify (fun s =>
    let w := world s in
    let h := trace w in
    setWorld (mkWorld (disturb env h c (tempDir w))
                      (clock w + elapsed env h c)
                      (procs w)
                      (h ++ [c])) s).

(** [await] of an engine call: it resolves, or rejects and the [await]
    throws. *)
Definition await (c : Call) : M Handling unit :=
  h <- gets (fun s => trace (world s)) ;;
  suspend c ;;
  match rejects env h c with
  | None => ret tt
  | Some e => throw e
  end.

(** [await new Promise(resolve => setTimeout(resolve, ms))]. *)
Definition sleep (ms : Z) : M Handling unit := suspend (SetTimeout ms).

(** [browser = await chromium.launch(options)]: when the launch resolves
    a new browser process runs, and [browser] is its handle. *)
Definition launch (options : JsVal) : M Handling unit :=
  await (Launch options) ;;
  modify (fun s =>
    let w := world s in
    let pid := freshPid (procs w) in
    setBrowser pid (setWorld (mkWorld (tempDir w) (clock w) (procs w ++ [pid]) (trace w)) s)).

(** [await browser.close()]: when it resolves the process is gone. *)
Definition browserClose (pid : nat) : M Handling unit :=
  await (BrowserClose pid) ;;
  modify (fun s =>
    let w := world s in
    setWorld (mkWorld (tempDir w) (clock w) (removePid pid (procs w)) (trace w)) s).

(** [await page.screenshot(options)]. *)
Definition screenshot (options : JsVal) : M Handling (list byte) :=
  h <- gets (fun s => trace (world s)) ;;
  await (Screenshot options) ;;
  ret (screenshotData env h).

(** [if (browser) await browser.close()], the [finally] block of both
    handlers. *)
Definition closeIfLaunched : M Handling unit :=
  b <- gets browser ;;
  match b with
  | Some pid => browserClose pid
  | None => ret tt
  end.

(** [res.status(500).json({...})], the end of both [catch] blocks. *)
Definition respond500 (category message : string) : M Handling unit :=
  resStatus 500 ;;
  resJson (errorBody category message).

(** [if (validationError) return res.status(400).json({ error })]. *)
Definition respond400 (validationError : string) : M Handling unit :=
  resStatus 400 ;;
  resJson (JObj [("error", JStr validationError)]).

(** [if (device !== 'full') await page.setViewportSize(deviceConfigs[device])]. *)
Definition applyViewport (device : string) : M Handling unit :=
  if negb (String.eqb device "full")
  then await (SetViewportSize (prop deviceConfigs device))
  else ret tt.

(** [GET /api/screenshot] (lines 56-87). *)
Definition screenshotHandler (q : Query) : M Handling unit :=
  let url := q_url q in
  let device := deviceParam (q_device q) in
  match validateInput URLparses url (Some device) with
  | Some validationError => respond400 validationError
  | None =>
      tryCatchFinally
        (launch launchOptions ;;
         await BrowserNewPage ;;
         applyViewport device ;;
         await (Goto url gotoOptions) ;;
         await (WaitForTimeout 2000) ;;
         shot <- screenshot (screenshotOptions device) ;;
         resSetHeader "Content-Type" "image/png" ;;
         now <- inWorld dateNow ;;
         resSetHeader "Content-Disposition"
           ("inline; filename=" ++ quote ++ "gifted_ssweb-" ++ device ++ "-"
              ++ numToString now ++ ".png" ++ quote) ;;
         resSend (Buffer shot))
        (fun message => respond500 "Error creating screenshot" message)
        closeIfLaunched
  end.

(** The artifact correlation of [/api/screenrecord] (lines 123-135): the
    first [.webm] entry of [tempDir] modified less than ten seconds
    ago is read, sent and removed. *)
Definition sendRecording (device recordingId : string) : M Handling unit :=
  files <- inWorld Fs.readdirSync ;;
  let videoFiles := filter (fun file => endsWith file ".webm") files in
  videoFile <- find videoFiles (fun file =>
                 mt <- inWorld (Fs.statSync file) ;;
                 now <- inWorld dateNow ;;
                 ret (mt >? now - 10000)) ;;
  if negb (truthy videoFile) then throw "Video file not found"
  else
    match videoFile with
    | None => throw "Video file not found"
    | Some videoPath =>
        videoBuffer <- inWorld (Fs.readFileSync videoPath) ;;
        resSetHeader "Content-Type" "video/webm" ;;
        resSetHeader "Content-Disposition"
          ("inline; filename=" ++ quote ++ "gifted_ssweb_rec-" ++ device ++ "-"
             ++ recordingId ++ ".webm" ++ quote) ;;
        resSend (Buffer videoBuffer) ;;
        inWorld (Fs.unlinkSync videoPath)
    end.

(** What [/api/screenrecord] does inside [try] up to the two-second wait
    that follows [context.close()] (lines 99-121). *)
Definition record (url : option string) (device duration : string) : M Handling unit :=
  launch launchOptions ;;
  await (BrowserNewContext (recordVideoOptions (tempDirPath env) device)) ;;
  modify setContext ;;
  await ContextNewPage ;;
  applyViewport device ;;
  await (Goto url gotoOptions) ;;
  await (WaitForTimeout 3000) ;;
  await (WaitForTimeout (recordDuration duration * 1000)) ;;
  await ContextClose ;;
  sleep 2000.

(** [GET /api/screenrecord] (lines 89-149). *)
Definition screenrecordHandler (q : Query) : M Handling unit :=
  let url := q_url q in
  let device := deviceParam (q_device q) in
  let duration := durationParam (q_duration q) in
  match validateInput URLparses url (Some device) with
  | Some validationError => respond400 validationError
  | None =>
      now <- inWorld dateNow ;;
      let recordingId := numToString now in
      tryCatchFinally
        (record url device duration ;;
         sendRecording device recordingId)
        (fun message =>
           c <- gets context ;;
           match c with
           | Some _ => await ContextClose
           | None => ret tt
           end ;;
           respond500 "Error creating screen recording" message)
        closeIfLaunched
  end.

End Handlers.

(** The two capture endpoints. *)
Inductive Endpoint : Type := ApiScreenshot | ApiScreenrecord.

Definition handler (URLparses : string -> bool) (env : Env) (e : Endpoint)
    : Query -> M Handling unit :=
  match e with
  | ApiScreenshot => screenshotHandler URLparses env
  | ApiScreenrecord => screenrecordHandler URLparses env
  end.

(** [GET /health] (lines 151-159); [timestamp] is
    [new Date().toISOString()]. *)
Definition healthBody (timestamp : string) : JsVal :=
  JObj [ ("status", JNum 200);
         ("success", JBool true);
         ("info", JStr "online");
         ("creator", JStr "GiftedTech");
         ("timestamp", JStr timestamp) ].

(** The handling of one request, from a state of the process: the final
    state, and whether the handler's promise rejected. *)
Definition handle (URLparses : string -> bool) (env : Env) (e : Endpoint)
    (q : Query) (w : World) : Result unit * Handling :=
  handler URLparses env e q (start w).

(** ** Notions used to state the properties *)

(** The test of line 47 on an entry. *)
Definition expired (now : Z) (f : File) : bool :=
  now - mtime f >? thirtyMinutes.

(** No [fs] call of a sweep at time [now] throws on the entries [d]:
    [statSync] succeeds on each, and [unlinkSync] on each expired one. *)
Definition sweepable (now : Z) (d : Dir) : bool :=
  forallb (fun e => negb (statThrows (snd e)) &&
                    (negb (expired now (snd e)) || negb (unlinkThrows (snd e)))) d.

(** What a sweep at time [now] leaves of the entries [d], which it visits
    in order: it stops at the first entry on which an [fs] call throws. *)
Fixpoint swept (now : Z) (d : Dir) : Dir :=
  match d with
  | [] => []
  | e :: rest =>
      if statThrows (snd e) then d
      else if expired now (snd e)
           then (if unlinkThrows (snd e) then d else swept now rest)
           else e :: swept now rest
  end.

(** The test of lines 123-124 on an entry: a [.webm] name and a
    modification time less than ten seconds before [now]. *)
Definition recent (now : Z) (e : string * File) : bool :=
  endsWith (fst e) ".webm" && (mtime (snd e) >? now - 10000).


(** The names of the entries [d] are pairwise different, as they are in a
    directory. *)
Fixpoint distinct (names : list string) : bool :=
  match names with
  | [] => true
  | x :: rest => negb (includes rest x) && distinct rest
  end.

Definition distinctNames (d : Dir) : bool := distinct (map fst d).

(** The engine calls made during a handling that started in [w]. *)
Definition calls (w : World) (s : Handling) : list Call :=
  skipn (List.length (trace w)) (trace (world s)).

(** What the artifact correlation leaves alone: the handler's variables,
    the clock, the processes and the log of engine calls; of [res], the
    status code, and a response is sent at most once. *)
Definition framed (s s' : Handling) : Prop :=
  browser s' = browser s /\
  context s' = context s /\
  clock (world s') = clock (world s) /\
  procs (world s') = procs (world s) /\
  trace (world s') = trace (world s) /\
  statusCode (res s') = statusCode (res s) /\
  (sent (res s') = sent (res s) \/
   sent (res s) = None /\
   exists hs data, sent (res s') = Some (mkResponse (statusCode (res s)) hs (Buffer data))).

Definition Framed {A} (m : M Handling A) : Prop :=
  forall s r s', m s = (r, s') -> framed s s'.

Definition isLaunch (c : Call) : bool :=
  match c with
  | Launch _ => true
  | _ => false
  end.

Definition isBrowserClose (c : Call) : bool :=
  match c with
  | BrowserClose _ => true
  | _ => false
  end.

(** The calls made before the first navigation; [None] when the page was
    never navigated. *)
Fixpoint untilGoto (l : list Call) : option (list Call) :=
  match l with
  | [] => None
  | Goto _ _ :: _ => Some []
  | c :: rest =>
      match untilGoto rest with
      | Some before => Some (c :: before)
      | None => None
      end
  end.

(** The viewport sizes applied by the calls [l], in order. *)
Fixpoint viewports (l : list Call) : list JsVal :=
  match l with
  | [] => []
  | SetViewportSize v :: rest => v :: viewports rest
  | _ :: rest => viewports rest
  end.

(** The headers of a recording's response (lines 131-132). *)
Definition recordingHeaders (device recordingId : string) : list (string * string) :=
  [("Content-Type", "video/webm");
   ("Content-Disposition",
    "inline; filename=" ++ quote ++ "gifted_ssweb_rec-" ++ device ++ "-"
      ++ recordingId ++ ".webm" ++ quote)].

(** ** Further notions on the log of engine calls *)

Definition isGoto (c : Call) : bool :=
  match c with
  | Goto _ _ => true
  | _ => false
  end.

Definition isContextClose (c : Call) : bool :=
  match c with
  | ContextClose => true
  | _ => false
  end.

(** The time a call asks a timer to run: [page.waitForTimeout(ms)] and
    [setTimeout(resolve, ms)]; a negative delay fires at once. *)
Definition timerDelay (c : Call) : Z :=
  match c with
  | WaitForTimeout ms => Z.max 0 ms
  | SetTimeout ms => Z.max 0 ms
  | _ => 0
  end.

Definition totalDelay (l : list Call) : Z :=
  fold_right (fun c t => timerDelay c + t) 0 l.

(** A computation that adds nothing to [tempDir]. *)
Definition Shrinking {A} (m : M Handling A) : Prop :=
  forall s r s', m s = (r, s') ->
  forall e, In e (tempDir (world s')) -> In e (tempDir (world s)).

(** A computation that removes no entry of [tempDir] but [.webm] ones. *)
Definition Keeping {A} (m : M Handling A) : Prop :=
  forall s r s', m s = (r, s') ->
  forall e, In e (tempDir (world s)) -> endsWith (fst e) ".webm" = false ->
            In e (tempDir (world s')).

(** The engine calls of [/api/screenshot] in the order of lines 63-72. *)
Definition screenshotScript (url : option string) (device : string) : list Call :=
  [Launch launchOptions; BrowserNewPage]
  ++ (if String.eqb device "full" then []
      else [SetViewportSize (prop deviceConfigs device)])
  ++ [Goto url gotoOptions; WaitForTimeout 2000;
      Screenshot (screenshotOptions device)].

(** The engine calls of [/api/screenrecord] in the order of lines 99-121;
    [dir] is the constant [tempDir]. *)
Definition recordScript (dir : string) (url : option string)
    (device duration : string) : list Call :=
  [Launch launchOptions; BrowserNewContext (recordVideoOptions dir device);
   ContextNewPage]
  ++ (if String.eqb device "full" then []
      else [SetViewportSize (prop deviceConfigs device)])
  ++ [Goto url gotoOptions; WaitForTimeout 3000;
      WaitForTimeout (recordDuration duration * 1000); ContextClose;
      SetTimeout 2000].

(** [s.includes(c)] for a single character [c]. *)
Fixpoint contains (c : ascii) (s : string) : bool :=
  match s with
  | EmptyString => false
  | String a r => Ascii.eqb a c || contains c r
  end.

(** How an awaited call settles: [None] when it resolves, the message when
    it rejects.  The promise of a [setTimeout] always resolves. *)
Definition settles (env : Env) (h : list Call) (c : Call) : option string :=
  match c with
  | SetTimeout _ => None
  | _ => rejects env h c
  end.

(** The log of a script of calls awaited one after the other from the
    history [h]: the calls up to and including the first one that
    rejects. *)
Fixpoint attempt (env : Env) (h : list Call) (script : list Call) : list Call :=
  match script with
  | [] => []
  | c :: rest =>
      c :: match settles env h c with
           | None => attempt env (h ++ [c]) rest
           | Some _ => []
           end
  end.

(** Every call of the script resolves. *)
Fixpoint resolves (env : Env) (h : list Call) (script : list Call) : bool :=
  match script with
  | [] => true
  | c :: rest =>
      match settles env h c with
      | None => resolves env (h ++ [c]) rest
      | Some _ => false
      end
  end.

(** What the outside makes of [tempDir] while the calls [cs] are awaited
    one after the other from the history [h]. *)
Fixpoint disturbedBy (env : Env) (h : list Call) (cs : list Call) (d : Dir) : Dir :=
  match cs with
  | [] => d
  | c :: rest => disturbedBy env (h ++ [c]) rest (disturb env h c d)
  end.

(** A computation that leaves [tempDir] as it is. *)
Definition DirFixed {A} (m : M Handling A) : Prop :=
  forall s r s', m s = (r, s') -> tempDir (world s') = tempDir (world s).

(** A computation that at most unlinks one [.webm] entry of [tempDir]. *)
Definition Unlinking {A} (m : M Handling A) : Prop :=
  forall s r s', m s = (r, s') ->
  tempDir (world s') = tempDir (world s) \/
  exists name,
    endsWith name ".webm" = true /\
    tempDir (world s') = removeFile (tempDir (world s)) name.

(** ** Sample data for the examples *)

Module Sample.

Definition plain (mt : Z) (data : list byte) : File :=
  mkFile mt data false false false.

(** An entry on which [statSync] throws. *)
Definition stuck (mt : Z) : File := mkFile mt [] true false false.

(** An engine on which every call resolves; a wait lasts as long as it
    was asked to, closing the context writes [clip.webm]. *)
Definition calm : Env :=
  mkEnv (fun _ _ => None)
        (fun _ c =>
           match c with
           | WaitForTimeout ms => Z.max ms 0
           | SetTimeout ms => Z.max ms 0
           | _ => 0
           end)
        (fun h c d =>
           match c with
           | ContextClose =>
               let now := fold_left (fun t c' =>
                              match c' with
                              | WaitForTimeout ms => t + Z.max ms 0
                              | _ => t
                              end) h 0 in
               (d ++ [("clip.webm", plain now [x52; x49; x46; x46])])%list
           | _ => d
           end)
        (fun _ => [x89; x50; x4e; x47])
        "/app/temp".

(** An engine whose navigation times out. *)
Definition unreachable : Env :=
  mkEnv (fun _ c =>
           match c with
           | Goto _ _ => Some "page.goto: Timeout 30000ms exceeded."
           | _ => None
           end)
        (elapsed calm) (fun _ _ d => d) (screenshotData calm) (tempDirPath calm).

Definition world0 : World := mkWorld [] 0 [] [].

Definition example : Query :=
  mkQuery (Some "https://example.com") (Some "phone") None.

Definition minutes (n : Z) : Z := n * 60 * 1000.

(** At minute 60: an entry 31 minutes old and one 5 minutes old. *)
Definition aged : World :=
  mkWorld [("old.webm", plain (minutes 29) []);
           ("new.webm", plain (minutes 55) [])]
          (minutes 60) [] [].

(** At minute 60: an entry on which [statSync] throws, listed before an
    expired one. *)
Definition jammed : World :=
  mkWorld [("first.webm", plain (minutes 10) []);
           ("stuck.webm", stuck (minutes 20));
           ("last.webm", plain (minutes 10) [])]
          (minutes 60) [] [].

(** An engine whose navigation times out and which then fails to close
    the context. *)
Definition wedged : Env :=
  mkEnv (fun _ c =>
           match c with
           | Goto _ _ => Some "page.goto: Timeout 30000ms exceeded."
           | ContextClose => Some "context.close: Target closed"
           | _ => None
           end)
        (elapsed calm) (fun _ _ d => d) (screenshotData calm) (tempDirPath calm).

(** A directory with a recent recording that cannot be unlinked. *)
Definition guarded : World :=
  mkWorld [("held.webm", mkFile 14000 [x52; x49] false false true)] 0 [] [].

(** At minute 60: a subdirectory, which [unlinkSync] refuses, listed before
    a file 31 minutes old. *)
Definition blocked : World :=
  mkWorld [("cache", mkFile (minutes 0) [] false false true);
           ("old.webm", plain (minutes 29) [])]
          (minutes 60) [] [].


(** The state in which the artifact correlation finds a fresh recording
    beside a file that is not a recording. *)
Definition scanning : Handling :=
  mkHandling
    (mkWorld [("clip.webm", plain 14000 [x52; x49; x46; x46]);
              ("notes.txt", plain 0 [])]
             15000 [] [])
    (mkRes 200 [] None) None None.

End Sample.

(** * Properties *)

Local Open Scope list_scope.

(** ** The recording duration *)

Lemma orTen_nonzero (x : option Z) : orTen x <> 0.
Proof.
  destruct x as [n|]; simpl; [|lia].
  destruct (n =? 0) eqn:E; [lia|].
  apply Z.eqb_neq in E. exact E.
Qed.

Lemma recordDuration_le_30 (duration : string) : recordDuration duration <= 30.
Proof. unfold recordDuration. apply Z.le_min_r. Qed.

(** C2, as the specification states it, fails: a negative duration is not
    raised to 1, [duration=-5] gives an effective duration of -5 seconds. *)
Lemma recordDuration_negative_unclamped :
  recordDuration (durationParam (Some "-5")) = -5 /\
  ~ (forall duration : option string,
       1 <= recordDuration (durationParam duration) <= 30).
Proof.
  split; [reflexivity|].
  intros H. specialize (H (Some "-5")).
  change (recordDuration (durationParam (Some "-5"))) with (-5) in H. lia.
Qed.

(** C2, amended: the effective duration of [/api/screenrecord] is at most
    30 seconds for every duration value; it is the default 10 when the value
    is absent, does not parse or parses to 0; it lies in [1, 30] when the
    value parses to a non-negative integer, and a negative integer is used
    as it is.  A requested 45 gives 30 and a requested 15 gives 15. *)
Theorem recordDuration_range (duration : option string) :
  let d := recordDuration (durationParam duration) in
  d <= 30 /\
  match parseInt (durationParam duration) with
  | None => d = 10
  | Some n =>
      if n =? 0 then d = 10
      else if 0 <? n then 1 <= d <= 30 /\ d = Z.min n 30
      else d = n
  end /\
  recordDuration (durationParam None) = 10 /\
  recordDuration (durationParam (Some "0")) = 10 /\
  recordDuration (durationParam (Some "45")) = 30 /\
  recordDuration (durationParam (Some "15")) = 15.
Proof.
  cbv zeta. split; [apply recordDuration_le_30|].
  split; [|repeat split; reflexivity].
  unfold recordDuration.
  destruct (parseInt (durationParam duration)) as [n|]; simpl; [|reflexivity].
  destruct (n =? 0) eqn:E0; [reflexivity|].
  apply Z.eqb_neq in E0.
  destruct (0 <? n) eqn:Epos.
  - apply Z.ltb_lt in Epos. lia.
  - apply Z.ltb_ge in Epos. lia.
Qed.

(** ** The validator *)

Lemma includes_In (xs : list string) (x : string) :
  includes xs x = true <-> In x xs.
Proof.
  induction xs as [|y ys IH]; simpl.
  - split; [discriminate|tauto].
  - rewrite orb_true_iff, IH, String.eqb_eq. tauto.
Qed.

Lemma truthy_Some (s : string) : truthy (Some s) = true <-> s <> "".
Proof.
  simpl. rewrite negb_true_iff. split.
  - intros H E. subst s. discriminate.
  - intros H. apply String.eqb_neq. exact H.
Qed.

Lemma validDevices_listed :
  join ", " validDevices = "phone, tablet, laptop, desktop, full".
Proof. reflexivity. Qed.

(** C5, as the specification states it, fails on the empty device tag: it
    is a string outside the device set, and [validateInput] accepts it. *)
Lemma validateInput_empty_device_accepted :
  includes validDevices "" = false /\
  validateInput hasScheme (Some "https://example.com") (Some "") = None /\
  ~ (forall (U : string -> bool) (url : option string) (d : string),
       includes validDevices d = false ->
       validateInput U url (Some d) <> None).
Proof.
  split; [reflexivity|]. split; [reflexivity|].
  intros H.
  apply (H hasScheme (Some "https://example.com") ""); reflexivity.
Qed.

(** C5, amended: [validateInput] returns an error message for an absent or
    empty address, for an address that does not parse as an absolute URL,
    and for every non-empty device tag outside
    {phone, tablet, laptop, desktop, full}, the message listing the valid
    options when the address is valid; for every address that parses and a
    device tag that is known, absent or empty it returns null. *)
Theorem validateInput_cases (U : string -> bool) (url device : option string) :
  (truthy url = false ->
   validateInput U url device = Some "URL parameter is required") /\
  (forall u, url = Some u -> u <> "" -> U u = false ->
   validateInput U url device = Some "Invalid URL format") /\
  (forall d, device = Some d -> d <> "" -> includes validDevices d = false ->
   validateInput U url device <> None /\
   (forall u, url = Some u -> u <> "" -> U u = true ->
    validateInput U url device =
      Some "Invalid device. Must be one of: phone, tablet, laptop, desktop, full")) /\
  (forall u, url = Some u -> u <> "" -> U u = true ->
   device = None \/ device = Some "" \/ (exists d, device = Some d /\ In d validDevices) ->
   validateInput U url device = None).
Proof.
  repeat split.
  - intros H. unfold validateInput. destruct url as [u|]; [|reflexivity].
    rewrite H. reflexivity.
  - intros u -> Hu HU. apply truthy_Some in Hu.
    unfold validateInput. rewrite Hu, HU. reflexivity.
  - subst device. unfold validateInput.
    destruct url as [u|]; [|discriminate].
    destruct (negb (truthy (Some u))); [discriminate|].
    destruct (negb (U u)); [discriminate|].
    apply truthy_Some in H0. rewrite H0, H1. discriminate.
  - intros u -> Hu HU. subst device. apply truthy_Some in Hu, H0.
    unfold validateInput. rewrite Hu, HU, H0, H1. reflexivity.
  - intros u -> Hu HU Hdev. apply truthy_Some in Hu.
    unfold validateInput. rewrite Hu, HU. cbn [negb].
    destruct Hdev as [-> | [-> | [d [-> Hd]]]]; try reflexivity.
    apply includes_In in Hd. rewrite Hd.
    rewrite andb_false_r. reflexivity.
Qed.

Lemma validateInput_cases_witness :
  validateInput hasScheme None (Some "phone") = Some "URL parameter is required" /\
  validateInput hasScheme (Some "") (Some "phone") = Some "URL parameter is required" /\
  validateInput hasScheme (Some "not-a-url") (Some "phone") = Some "Invalid URL format" /\
  validateInput hasScheme (Some "https://example.com") (Some "watch") =
    Some "Invalid device. Must be one of: phone, tablet, laptop, desktop, full" /\
  validateInput hasScheme (Some "https://example.com") (Some "tablet") = None /\
  validateInput hasScheme (Some "https://example.com") None = None.
Proof.
  split; [|split; [|split; [|split; [|split]]]].
  - apply (proj1 (validateInput_cases hasScheme None (Some "phone"))).
    reflexivity.
  - apply (proj1 (validateInput_cases hasScheme (Some "") (Some "phone"))).
    reflexivity.
  - apply (proj1 (proj2 (validateInput_cases hasScheme (Some "not-a-url") (Some "phone")))
             "not-a-url"); [reflexivity|discriminate|reflexivity].
  - apply (proj2 (proj1 (proj2 (proj2
             (validateInput_cases hasScheme (Some "https://example.com") (Some "watch"))))
             "watch" eq_refl ltac:(discriminate) eq_refl) "https://example.com");
      [reflexivity|discriminate|reflexivity].
  - apply (proj2 (proj2 (proj2
             (validateInput_cases hasScheme (Some "https://example.com") (Some "tablet"))))
             "https://example.com"); [reflexivity|discriminate|reflexivity|].
    right. right. exists "tablet". split; [reflexivity|]. simpl. tauto.
  - apply (proj2 (proj2 (proj2
             (validateInput_cases hasScheme (Some "https://example.com") None)))
             "https://example.com"); [reflexivity|discriminate|reflexivity|].
    left. reflexivity.
Defined.

(** ** The retention sweeper *)

Lemma lookupFile_app_fresh (kept rest : Dir) (name : string) (f : File) :
  ~ In name (map fst kept) ->
  lookupFile (kept ++ (name, f) :: rest) name = Some f.
Proof.
  unfold lookupFile. induction kept as [|[n g] kept IH]; simpl; intros Hn.
  - rewrite String.eqb_refl. reflexivity.
  - destruct (String.eqb n name) eqn:E.
    + apply String.eqb_eq in E. tauto.
    + apply IH. tauto.
Qed.

Lemma removeFile_app_fresh (kept rest : Dir) (name : string) (f : File) :
  ~ In name (map fst kept) ->
  removeFile (kept ++ (name, f) :: rest) name = kept ++ rest.
Proof.
  induction kept as [|[n g] kept IH]; simpl; intros Hn.
  - rewrite String.eqb_refl. reflexivity.
  - destruct (String.eqb n name) eqn:E.
    + apply String.eqb_eq in E. tauto.
    + f_equal. apply IH. tauto.
Qed.

Lemma NoDup_names_fresh (kept rest : Dir) (name : string) (f : File) :
  NoDup (map fst (kept ++ (name, f) :: rest)) ->
  ~ In name (map fst kept) /\ NoDup (map fst (kept ++ rest)).
Proof.
  rewrite !map_app. simpl. intros H. split.
  - apply NoDup_remove_2 in H. intros Hin. apply H. apply in_or_app. tauto.
  - apply NoDup_remove_1 in H. exact H.
Qed.

Lemma statSync_run (file : string) (w : World) :
  Fs.statSync file w =
  match lookupFile (tempDir w) file with
  | None => (Throw ("ENOENT: no such file or directory, stat " ++ file)%string, w)
  | Some f =>
      if statThrows f
      then (Throw ("EACCES: permission denied, stat " ++ file)%string, w)
      else (Ok (mtime f), w)
  end.
Proof.
  unfold Fs.statSync, bind, gets.
  destruct (lookupFile (tempDir w) file) as [f|]; [|reflexivity].
  destruct (statThrows f); reflexivity.
Qed.

Lemma readFileSync_run (file : string) (w : World) :
  Fs.readFileSync file w =
  match lookupFile (tempDir w) file with
  | None => (Throw ("ENOENT: no such file or directory, open " ++ file)%string, w)
  | Some f =>
      if readThrows f
      then (Throw ("EACCES: permission denied, open " ++ file)%string, w)
      else (Ok (content f), w)
  end.
Proof.
  unfold Fs.readFileSync, bind, gets.
  destruct (lookupFile (tempDir w) file) as [f|]; [|reflexivity].
  destruct (readThrows f); reflexivity.
Qed.

Lemma unlinkSync_run (file : string) (w : World) :
  Fs.unlinkSync file w =
  match lookupFile (tempDir w) file with
  | None => (Throw ("ENOENT: no such file or directory, unlink " ++ file)%string, w)
  | Some f =>
      if unlinkThrows f
      then (Throw ("EPERM: operation not permitted, unlink " ++ file)%string, w)
      else (Ok tt, setTempDir (removeFile (tempDir w) file) w)
  end.
Proof.
  unfold Fs.unlinkSync, bind, gets.
  destruct (lookupFile (tempDir w) file) as [f|]; [|reflexivity].
  destruct (unlinkThrows f); reflexivity.
Qed.

(** The loop of lines 44-50, started on the part [rest] of the directory
    that is still to be visited. *)
Lemma forEach_sweep (now : Z) (w : World) (rest kept : Dir) :
  NoDup (map fst (kept ++ rest)) ->
  exists r,
    forEach (map fst rest)
      (fun file =>
         mt <- Fs.statSync file ;;
         if now - mt >? thirtyMinutes then Fs.unlinkSync file else ret tt)
      (setTempDir (kept ++ rest) w)
    = (r, setTempDir (kept ++ swept now rest) w).
Proof.
  revert kept. induction rest as [|[name f] rest IH]; intros kept Hnd.
  - exists (Ok tt). reflexivity.
  - destruct (NoDup_names_fresh _ _ _ _ Hnd) as [Hfresh Hnd'].
    cbn [map fst forEach swept snd].
    unfold bind at 1. unfold bind at 1.
    rewrite statSync_run. cbn [tempDir setTempDir].
    rewrite (lookupFile_app_fresh _ _ _ _ Hfresh).
    destruct (statThrows f) eqn:Estat.
    { eexists. reflexivity. }
    fold (expired now f).
    destruct (expired now f) eqn:Eexp.
    + rewrite unlinkSync_run. cbn [tempDir setTempDir].
      rewrite (lookupFile_app_fresh _ _ _ _ Hfresh).
      destruct (unlinkThrows f) eqn:Eunl.
      { eexists. reflexivity. }
      rewrite (removeFile_app_fresh _ _ _ _ Hfresh).
      exact (IH kept Hnd').
    + unfold ret at 1.
      specialize (IH (kept ++ [(name, f)])).
      rewrite <- !app_assoc in IH. simpl in IH.
      apply IH. exact Hnd.
Qed.

Lemma setTempDir_same (w : World) : setTempDir (tempDir w) w = w.
Proof. destruct w. reflexivity. Qed.

(** A sweep never throws, and what it leaves is [swept]. *)
Lemma cleanupTempFiles_swept (w : World) :
  NoDup (map fst (tempDir w)) ->
  cleanupTempFiles w = (Ok tt, setTempDir (swept (clock w) (tempDir w)) w).
Proof.
  intros Hnd.
  destruct (forEach_sweep (clock w) w (tempDir w) [] Hnd) as [r Hr].
  simpl app in Hr. rewrite setTempDir_same in Hr.
  unfold cleanupTempFiles, dateNow.
  unfold bind at 1, gets at 1. unfold tryCatch.
  unfold bind at 1. unfold Fs.readdirSync, gets at 1.
  rewrite Hr. destruct r as [[]|e]; reflexivity.
Qed.

Lemma cleanupTempFiles_returns (w : World) : fst (cleanupTempFiles w) = Ok tt.
Proof.
  unfold cleanupTempFiles, dateNow.
  unfold bind at 1, gets at 1. unfold tryCatch.
  match goal with |- context [match ?b with _ => _ end] => destruct b as [[[]|e] w1] end;
    reflexivity.
Qed.

Lemma swept_sweepable (now : Z) (d : Dir) :
  sweepable now d = true ->
  swept now d = filter (fun e => negb (expired now (snd e))) d.
Proof.
  induction d as [|e d IH]; simpl; [reflexivity|].
  rewrite !andb_true_iff, orb_true_iff, !negb_true_iff.
  intros [[Hs Hu] Hd]. rewrite Hs.
  destruct (expired now (snd e)); simpl.
  - destruct Hu as [Hu|Hu]; [discriminate|]. rewrite Hu. apply IH, Hd.
  - f_equal. apply IH, Hd.
Qed.

Lemma swept_stops (now : Z) (before after : Dir) (e : string * File) :
  sweepable now before = true ->
  statThrows (snd e) = true \/
    (expired now (snd e) = true /\ unlinkThrows (snd e) = true) ->
  swept now (before ++ e :: after)
  = filter (fun e => negb (expired now (snd e))) before ++ e :: after.
Proof.
  intros Hb He. induction before as [|b before IH]; simpl.
  - destruct (statThrows (snd e)); [reflexivity|].
    destruct He as [He|[He1 He2]]; [discriminate|]. rewrite He1, He2. reflexivity.
  - simpl in Hb.
    rewrite !andb_true_iff, orb_true_iff, !negb_true_iff in Hb.
    destruct Hb as [[Hs Hu] Hb]. rewrite Hs.
    destruct (expired now (snd b)); simpl.
    + destruct Hu as [Hu|Hu]; [discriminate|]. rewrite Hu. apply IH, Hb.
    + f_equal. apply IH, Hb.
Qed.

Lemma lookupFile_filter (keep : File -> bool) (d : Dir) (name : string) (f : File) :
  NoDup (map fst d) -> In (name, f) d ->
  lookupFile (filter (fun e => keep (snd e)) d) name
  = if keep f then Some f else None.
Proof.
  unfold lookupFile.
  induction d as [|[n g] d IH]; simpl; intros Hnd Hin; [tauto|].
  inversion Hnd as [|? ? Hn Hnd']; subst.
  destruct Hin as [Heq|Hin].
  - inversion Heq; subst. destruct (keep f) eqn:Ek; simpl.
    + rewrite String.eqb_refl. reflexivity.
    + destruct (List.find _ _) as [[n' g']|] eqn:Ef; [|reflexivity].
      apply find_some in Ef. destruct Ef as [Ef1 Ef2].
      simpl in Ef2. apply String.eqb_eq in Ef2. subst n'.
      apply filter_In in Ef1. destruct Ef1 as [Ef1 _].
      exfalso. apply Hn. apply (in_map fst) in Ef1. exact Ef1.
  - assert (n <> name) as Hne.
    { intros ->. apply Hn. apply (in_map fst) in Hin. exact Hin. }
    apply String.eqb_neq in Hne.
    destruct (keep g); simpl; [rewrite Hne|]; apply IH; assumption.
Qed.

Lemma swept_incl (now : Z) (d : Dir) (e : string * File) :
  In e (swept now d) -> In e d.
Proof.
  induction d as [|x d IH]; simpl; [tauto|].
  destruct (statThrows (snd x)); [simpl; tauto|].
  destruct (expired now (snd x)).
  - destruct (unlinkThrows (snd x)); [simpl; tauto|]. intros H. right. apply IH, H.
  - simpl. intros [H|H]; [left; exact H|right; apply IH, H].
Qed.

Lemma swept_keeps_fresh (now : Z) (d : Dir) (e : string * File) :
  In e d -> expired now (snd e) = false -> In e (swept now d).
Proof.
  induction d as [|x d IH]; simpl; [tauto|].
  intros Hin He.
  destruct (statThrows (snd x)); [exact Hin|].
  destruct (expired now (snd x)) eqn:Ex.
  - destruct (unlinkThrows (snd x)); [exact Hin|].
    destruct Hin as [->|Hin]; [congruence|]. apply IH; assumption.
  - destruct Hin as [->|Hin]; [left; reflexivity|]. right. apply IH; assumption.
Qed.

Lemma swept_NoDup (now : Z) (d : Dir) :
  NoDup (map fst d) -> NoDup (map fst (swept now d)).
Proof.
  induction d as [|x d IH]; simpl; intros Hnd; [constructor|].
  destruct (statThrows (snd x)); [exact Hnd|].
  inversion Hnd as [|? ? Hx Hd]; subst.
  destruct (expired now (snd x)).
  - destruct (unlinkThrows (snd x)); [exact Hnd|]. apply IH, Hd.
  - simpl. constructor; [|apply IH, Hd].
    intros Hin. apply Hx. apply in_map_iff in Hin.
    destruct Hin as (e & He & Hin). rewrite <- He.
    apply in_map. apply (swept_incl now d e Hin).
Qed.

Lemma lookupFile_present (d : Dir) (name : string) (f : File) :
  NoDup (map fst d) -> In (name, f) d -> lookupFile d name = Some f.
Proof.
  intros Hnd Hin.
  apply in_split in Hin. destruct Hin as (kept & rest & ->).
  apply lookupFile_app_fresh.
  apply (NoDup_names_fresh _ _ _ _ Hnd).
Qed.

(** C7, amended: on each sweep, an entry of the temporary directory is
    deleted only if its modification time is more than 30 minutes in the
    past, so that an entry 5 minutes old is retained; on a sweep during
    which no [fs] call throws it is deleted if and only if that is so, and
    an entry 31 minutes old is deleted. *)
Theorem sweep_deletes_exactly_expired (w : World) :
  NoDup (map fst (tempDir w)) ->
  let w' := snd (cleanupTempFiles w) in
  (forall name f, In (name, f) (tempDir w) ->
     clock w - mtime f <= 30 * 60 * 1000 ->
     lookupFile (tempDir w') name = Some f) /\
  (sweepable (clock w) (tempDir w) = true ->
   tempDir w' = filter (fun e => negb (expired (clock w) (snd e))) (tempDir w) /\
   (forall name f, In (name, f) (tempDir w) ->
      (lookupFile (tempDir w') name = None <-> clock w - mtime f > 30 * 60 * 1000) /\
      (lookupFile (tempDir w') name = Some f <-> clock w - mtime f <= 30 * 60 * 1000)) /\
   (forall name f, In (name, f) (tempDir w) ->
      mtime f = clock w - 31 * 60 * 1000 -> lookupFile (tempDir w') name = None) /\
   (forall name f, In (name, f) (tempDir w) ->
      mtime f = clock w - 5 * 60 * 1000 -> lookupFile (tempDir w') name = Some f)).
Proof.
  intros Hnd w'.
  assert (tempDir w' = swept (clock w) (tempDir w)) as Hswept.
  { unfold w'. rewrite (cleanupTempFiles_swept w Hnd). reflexivity. }
  split.
  { intros name f Hin Hage. rewrite Hswept.
    apply lookupFile_present; [apply swept_NoDup, Hnd|].
    apply swept_keeps_fresh; [exact Hin|].
    unfold expired, thirtyMinutes. cbn [snd].
    rewrite Z.gtb_ltb. apply Z.ltb_ge. lia. }
  intros Hok.
  assert (tempDir w' = filter (fun e => negb (expired (clock w) (snd e))) (tempDir w))
    as Hdir.
  { rewrite Hswept. apply swept_sweepable, Hok. }
  assert (forall name f, In (name, f) (tempDir w) ->
            lookupFile (tempDir w') name
            = if negb (expired (clock w) f) then Some f else None) as Hlook.
  { intros name f Hin. rewrite Hdir.
    apply (lookupFile_filter (fun f => negb (expired (clock w) f))); assumption. }
  split; [exact Hdir|].
  split; [|split].
  - intros name f Hin. rewrite (Hlook name f Hin).
    unfold expired, thirtyMinutes.
    destruct (clock w - mtime f >? 30 * 60 * 1000) eqn:E; simpl.
    + apply Z.gtb_lt in E. split; split; (reflexivity || discriminate || lia).
    + rewrite Z.gtb_ltb in E. apply Z.ltb_ge in E.
      split; split; (reflexivity || discriminate || lia).
  - intros name f Hin Hm. rewrite (Hlook name f Hin).
    unfold expired, thirtyMinutes. rewrite Hm.
    replace (clock w - (clock w - 31 * 60 * 1000)) with 1860000 by lia.
    reflexivity.
  - intros name f Hin Hm. rewrite (Hlook name f Hin).
    unfold expired, thirtyMinutes. rewrite Hm.
    replace (clock w - (clock w - 5 * 60 * 1000)) with 300000 by lia.
    reflexivity.
Qed.

Lemma distinctNames_NoDup (d : Dir) :
  distinctNames d = true -> NoDup (map fst d).
Proof.
  unfold distinctNames.
  induction (map fst d) as [|x l IH]; simpl; intros H; [constructor|].
  apply andb_true_iff in H. destruct H as [Hx Hl].
  constructor; [|apply IH, Hl].
  intros Hin. apply includes_In in Hin. rewrite Hin in Hx. discriminate.
Qed.

Lemma sweep_deletes_exactly_expired_witness :
  lookupFile (tempDir (snd (cleanupTempFiles Sample.aged))) "old.webm" = None /\
  lookupFile (tempDir (snd (cleanupTempFiles Sample.aged))) "new.webm"
  = Some (Sample.plain (Sample.minutes 55) []).
Proof.
  pose proof (sweep_deletes_exactly_expired Sample.aged
                (distinctNames_NoDup (tempDir Sample.aged) eq_refl)) as H.
  cbv zeta in H. destruct H as [_ H].
  destruct (H eq_refl) as [_ [_ [Hold Hnew]]].
  split.
  - apply (Hold "old.webm" (Sample.plain (Sample.minutes 29) [])).
    + simpl. left. reflexivity.
    + reflexivity.
  - apply (Hnew "new.webm" (Sample.plain (Sample.minutes 55) [])).
    + simpl. right. left. reflexivity.
    + reflexivity.
Defined.

(** C7, as the specification states it, fails: a sweep brought to an end by
    an [fs] error leaves a file 31 minutes old in place. *)
Lemma sweep_leaves_expired_after_error :
  lookupFile (tempDir (snd (cleanupTempFiles Sample.blocked))) "old.webm"
  = Some (Sample.plain (Sample.minutes 29) []) /\
  clock Sample.blocked - mtime (Sample.plain (Sample.minutes 29) []) = 31 * 60 * 1000 /\
  ~ (forall (w : World) (name : string) (f : File),
       NoDup (map fst (tempDir w)) ->
       In (name, f) (tempDir w) ->
       (lookupFile (tempDir (snd (cleanupTempFiles w))) name = None <->
        clock w - mtime f > 30 * 60 * 1000)).
Proof.
  split; [reflexivity|]. split; [reflexivity|].
  intros H.
  specialize (H Sample.blocked "old.webm" (Sample.plain (Sample.minutes 29) [])
                (distinctNames_NoDup (tempDir Sample.blocked) eq_refl)).
  assert (lookupFile (tempDir (snd (cleanupTempFiles Sample.blocked))) "old.webm"
          = Some (Sample.plain (Sample.minutes 29) [])) as Hstill by reflexivity.
  destruct H as [_ H].
  - simpl. right. left. reflexivity.
  - rewrite H in Hstill; [discriminate Hstill|].
    vm_compute. reflexivity.
Qed.

(** C3, as the specification states it, fails: the error on one entry is
    swallowed, but it ends the sweep; an expired entry listed after the
    failing one is neither examined nor deleted. *)
Lemma sweep_halts_at_stuck_file :
  cleanupTempFiles Sample.jammed
  = (Ok tt, setTempDir [("stuck.webm", Sample.stuck (Sample.minutes 20));
                        ("last.webm", Sample.plain (Sample.minutes 10) [])]
                       Sample.jammed) /\
  ~ (forall (w : World) (name : string) (f : File),
       NoDup (map fst (tempDir w)) ->
       In (name, f) (tempDir w) ->
       statThrows f = false -> unlinkThrows f = false ->
       expired (clock w) f = true ->
       lookupFile (tempDir (snd (cleanupTempFiles w))) name = None).
Proof.
  split; [reflexivity|].
  intros H.
  specialize (H Sample.jammed "last.webm"
                (Sample.plain (Sample.minutes 10) [])
                (distinctNames_NoDup (tempDir Sample.jammed) eq_refl)).
  assert (lookupFile (tempDir (snd (cleanupTempFiles Sample.jammed))) "last.webm"
          = Some (Sample.plain (Sample.minutes 10) [])) as Hstill by reflexivity.
  rewrite H in Hstill; try reflexivity; [discriminate|].
  simpl. right. right. left. reflexivity.
Qed.

(** C3, amended: during one sweep, an error while reading or removing one
    entry of the temporary directory is swallowed: the sweep returns
    normally and the process does not crash.  The entries listed before the
    failing one have been examined and, when expired, deleted; the failing
    entry and those listed after it are left as they were by that sweep. *)
Theorem sweep_swallows_error_and_stops (w : World) :
  fst (cleanupTempFiles w) = Ok tt /\
  forall (before after : Dir) (name : string) (f : File),
    tempDir w = before ++ (name, f) :: after ->
    NoDup (map fst (tempDir w)) ->
    sweepable (clock w) before = true ->
    statThrows f = true \/ (expired (clock w) f = true /\ unlinkThrows f = true) ->
    cleanupTempFiles w
    = (Ok tt,
       setTempDir (filter (fun e => negb (expired (clock w) (snd e))) before
                   ++ (name, f) :: after) w).
Proof.
  split; [apply cleanupTempFiles_returns|].
  intros before after name f Hdir Hnd Hbefore Hfail.
  rewrite (cleanupTempFiles_swept w Hnd). rewrite Hdir.
  rewrite (swept_stops (clock w) before after (name, f) Hbefore Hfail).
  reflexivity.
Qed.

Lemma sweep_swallows_error_and_stops_witness :
  fst (cleanupTempFiles Sample.jammed) = Ok tt /\
  cleanupTempFiles Sample.jammed
  = (Ok tt, setTempDir ([] ++ [("stuck.webm", Sample.stuck (Sample.minutes 20));
                               ("last.webm", Sample.plain (Sample.minutes 10) [])])
                       Sample.jammed).
Proof.
  split.
  - exact (proj1 (sweep_swallows_error_and_stops Sample.jammed)).
  - apply (proj2 (sweep_swallows_error_and_stops Sample.jammed)
             [("first.webm", Sample.plain (Sample.minutes 10) [])]
             [("last.webm", Sample.plain (Sample.minutes 10) [])]
             "stuck.webm" (Sample.stuck (Sample.minutes 20))).
    + reflexivity.
    + apply distinctNames_NoDup. reflexivity.
    + reflexivity.
    + left. reflexivity.
Defined.

(** ** Running the handlers *)

(** Unfolding of the handlers' control flow; the engine's answers, the
    artifact correlation and the string functions stay folded. *)
Ltac run :=
  cbv beta iota zeta delta
    [handle handler screenshotHandler screenrecordHandler record
     tryCatchFinally tryFinally tryCatch bind ret throw gets modify
     launch await suspend sleep browserClose screenshot closeIfLaunched
     respond500 respond400 applyViewport inWorld dateNow
     resStatus resSetHeader resSend resJson response
     start setWorld setRes setBrowser setContext
     world res browser context statusCode headers sent
     tempDir clock procs trace fst snd];
  cbn [hasHeader existsb putHeader filter app fst snd negb orb andb
       String.eqb Ascii.eqb Bool.eqb].

(** One case distinction on what the outside answers. *)
Ltac branch :=
  match goal with
  | |- context [match rejects ?e ?h ?c with _ => _ end] =>
      destruct (rejects e h c) eqn:?
  | |- context [if negb (String.eqb ?a ?b) then _ else _] =>
      destruct (String.eqb a b) eqn:?
  | |- context [if String.eqb ?a ?b then _ else _] =>
      destruct (String.eqb a b) eqn:?
  end.

Ltac run_all := run; repeat (branch; run).

Lemma framed_refl (s : Handling) : framed s s.
Proof. unfold framed. tauto. Qed.

Lemma framed_trans (s1 s2 s3 : Handling) :
  framed s1 s2 -> framed s2 s3 -> framed s1 s3.
Proof.
  unfold framed.
  intros (Hb & Hc & Hk & Hp & Ht & Hs & Hr) (Hb' & Hc' & Hk' & Hp' & Ht' & Hs' & Hr').
  repeat split; try congruence.
  destruct Hr' as [Hr'|[Hn (hs & data & Hr')]].
  - destruct Hr as [Hr|[Hn' Hr]].
    + left. congruence.
    + right. split; [exact Hn'|]. rewrite Hr'. exact Hr.
  - destruct Hr as [Hr|[Hn' (hs' & data' & Hr)]].
    + right. split; [congruence|]. exists hs, data. congruence.
    + congruence.
Qed.

Lemma Framed_ret {A} (a : A) : Framed (ret a).
Proof. intros s r s' H. inversion H. apply framed_refl. Qed.

Lemma Framed_throw {A} (e : string) : Framed (@throw Handling A e).
Proof. intros s r s' H. inversion H. apply framed_refl. Qed.

Lemma Framed_bind {A B} (m : M Handling A) (k : A -> M Handling B) :
  Framed m -> (forall a, Framed (k a)) -> Framed (bind m k).
Proof.
  intros Hm Hk s r s' H. unfold bind in H.
  destruct (m s) as [[a|e] s1] eqn:E.
  - apply (framed_trans s s1 s'); [exact (Hm _ _ _ E)|exact (Hk a _ _ _ H)].
  - inversion H; subst. exact (Hm _ _ _ E).
Qed.

Lemma Framed_statSync (file : string) : Framed (inWorld (Fs.statSync file)).
Proof.
  intros s r s' H. unfold inWorld in H. rewrite statSync_run in H.
  destruct (lookupFile _ _) as [f|]; [destruct (statThrows f)|];
    inversion H; destruct s; apply framed_refl.
Qed.

Lemma Framed_readFileSync (file : string) : Framed (inWorld (Fs.readFileSync file)).
Proof.
  intros s r s' H. unfold inWorld in H. rewrite readFileSync_run in H.
  destruct (lookupFile _ _) as [f|]; [destruct (readThrows f)|];
    inversion H; destruct s; apply framed_refl.
Qed.

Lemma Framed_unlinkSync (file : string) : Framed (inWorld (Fs.unlinkSync file)).
Proof.
  intros s r s' H. unfold inWorld in H. rewrite unlinkSync_run in H.
  destruct (lookupFile _ _) as [f|]; [destruct (unlinkThrows f)|];
    inversion H; destruct s; unfold framed; simpl; tauto.
Qed.

Lemma Framed_readdirSync : Framed (inWorld Fs.readdirSync).
Proof. intros s r s' H. inversion H. destruct s. apply framed_refl. Qed.

Lemma Framed_dateNow : Framed (inWorld dateNow).
Proof. intros s r s' H. inversion H. destruct s. apply framed_refl. Qed.

Lemma Framed_resSetHeader (name value : string) : Framed (resSetHeader name value).
Proof.
  intros s r s' H. unfold resSetHeader, bind, gets in H.
  destruct (sent (res s)) eqn:E; inversion H.
  - apply framed_refl.
  - unfold framed. simpl. rewrite E. tauto.
Qed.

Lemma Framed_resSend (data : list byte) : Framed (resSend (Buffer data)).
Proof.
  intros s r s' H. unfold resSend, bind, gets in H.
  destruct (sent (res s)) eqn:E; inversion H.
  - apply framed_refl.
  - unfold framed. simpl. repeat (split; [reflexivity|]).
    right. split; [exact E|]. eauto.
Qed.

Lemma Framed_find {A} (xs : list A) (p : A -> M Handling bool) :
  (forall x, Framed (p x)) -> Framed (find xs p).
Proof.
  intros Hp. induction xs as [|x xs IH]; simpl.
  - apply Framed_ret.
  - apply Framed_bind; [apply Hp|].
    intros [|]; [apply Framed_ret|exact IH].
Qed.

Lemma Framed_sendRecording (device recordingId : string) :
  Framed (sendRecording device recordingId).
Proof.
  unfold sendRecording.
  apply Framed_bind; [apply Framed_readdirSync|]. intros files.
  apply Framed_bind.
  { apply Framed_find. intros file.
    apply Framed_bind; [apply Framed_statSync|]. intros mt.
    apply Framed_bind; [apply Framed_dateNow|]. intros now.
    apply Framed_ret. }
  intros videoFile.
  destruct (negb (truthy videoFile)); [apply Framed_throw|].
  destruct videoFile as [videoPath|]; [|apply Framed_throw].
  apply Framed_bind; [apply Framed_readFileSync|]. intros videoBuffer.
  apply Framed_bind; [apply Framed_resSetHeader|]. intros _.
  apply Framed_bind; [apply Framed_resSetHeader|]. intros _.
  apply Framed_bind; [apply Framed_resSend|]. intros _.
  apply Framed_unlinkSync.
Qed.

(** The artifact correlation is replaced by what it may leave. *)
Ltac correlate :=
  match goal with
  | |- context [sendRecording ?d ?i ?s] =>
      let E := fresh "E" in
      let F := fresh "F" in
      destruct (sendRecording d i s) as [[[]|?] [[? ? ? ?] [? ? ?] ? ?]] eqn:E;
      pose proof (Framed_sendRecording d i _ _ _ E) as F;
      unfold framed in F;
      cbn [browser context world clock procs trace res statusCode sent] in F;
      destruct F as (? & ? & ? & ? & ? & ? & ?); subst; clear E
  end.

Ltac branch_any :=
  first
    [ branch
    | correlate
    | match goal with
      | |- context [if hasHeader ?n ?l then _ else _] =>
          destruct (hasHeader n l) eqn:?
      | |- context [match ?x with Some _ => _ | None => _ end] =>
          is_var x; destruct x
      end ].

Ltac run_handler := run; repeat (branch_any; run).

Lemma skipn_own_length {A} (h l : list A) : skipn (List.length h) (h ++ l) = l.
Proof. induction h as [|x h IH]; simpl; [reflexivity|exact IH]. Qed.

Lemma calls_start (w : World) : calls w (start w) = [].
Proof. unfold calls. simpl. apply skipn_all. Qed.

Lemma freshPid_fresh (ps : list nat) : ~ In (freshPid ps) ps.
Proof.
  assert (forall p, In p ps -> (p <= list_max ps)%nat) as Hmax.
  { induction ps as [|x ps IH]; simpl; [tauto|].
    intros p [->|Hp]; [lia|]. specialize (IH p Hp). lia. }
  unfold freshPid. intros Hin.
  specialize (Hmax _ Hin). lia.
Qed.

Lemma removePid_absent (pid : nat) (ps : list nat) :
  ~ In pid ps -> removePid pid ps = ps.
Proof.
  unfold removePid. induction ps as [|p ps IH]; simpl; intros Hn; [reflexivity|].
  destruct (Nat.eqb p pid) eqn:E.
  - apply Nat.eqb_eq in E. tauto.
  - simpl. f_equal. apply IH. tauto.
Qed.

Lemma removePid_launched (ps : list nat) :
  removePid (freshPid ps) (ps ++ [freshPid ps]) = ps.
Proof.
  unfold removePid. rewrite filter_app. simpl. rewrite Nat.eqb_refl. simpl.
  rewrite app_nil_r. apply removePid_absent, freshPid_fresh.
Qed.

(** ** Validation failures *)

(** C8: when validation fails the endpoint responds 400 with the validation
    message as it is, and allocates nothing: no engine call is made, no
    browser is launched, and the process-wide state, the temporary
    directory included, is unchanged. *)
Theorem validation_failure_allocates_nothing
    (U : string -> bool) (env : Env) (e : Endpoint) (q : Query) (w : World)
    (message : string) :
  validateInput U (q_url q) (Some (deviceParam (q_device q))) = Some message ->
  let s' := snd (handle U env e q w) in
  fst (handle U env e q w) = Ok tt /\
  response s'
  = Some (mkResponse 400 [("Content-Type", "application/json; charset=utf-8")]
                     (Json (JObj [("error", JStr message)]))) /\
  world s' = w /\
  tempDir (world s') = tempDir w /\
  procs (world s') = procs w /\
  calls w s' = [] /\
  browser s' = None /\
  context s' = None.
Proof.
  intros Hval.
  assert (handle U env e q w
          = (Ok tt,
             mkHandling w
               (mkRes 400 [("Content-Type", "application/json; charset=utf-8")]
                  (Some (mkResponse 400
                           [("Content-Type", "application/json; charset=utf-8")]
                           (Json (JObj [("error", JStr message)])))))
               None None)) as Hrun.
  { destruct e; unfold handle, handler, screenshotHandler, screenrecordHandler;
      cbv zeta; rewrite Hval; reflexivity. }
  cbv zeta. rewrite Hrun. cbn [fst snd response res sent world browser context].
  repeat split; try reflexivity.
  unfold calls. cbn [world]. apply skipn_all.
Qed.

Lemma validation_failure_allocates_nothing_witness :
  response (snd (handle hasScheme Sample.calm ApiScreenshot
                   (mkQuery (Some "not-a-url") None None) Sample.aged))
  = Some (mkResponse 400 [("Content-Type", "application/json; charset=utf-8")]
                     (Json (JObj [("error", JStr "Invalid URL format")]))) /\
  world (snd (handle hasScheme Sample.calm ApiScreenshot
                (mkQuery (Some "not-a-url") None None) Sample.aged))
  = Sample.aged.
Proof.
  pose proof (validation_failure_allocates_nothing hasScheme Sample.calm ApiScreenshot
                (mkQuery (Some "not-a-url") None None) Sample.aged
                "Invalid URL format" eq_refl) as H.
  cbv zeta in H. destruct H as (_ & Hresp & Hworld & _).
  split; [exact Hresp|exact Hworld].
Defined.

(** ** The browser is closed on every exit *)

Ltac flatten_trace := rewrite <- ?app_assoc; cbn [app]; rewrite ?skipn_own_length.

(** C1: for every request to a capture endpoint that gets past validation,
    whatever the engine answers (success, a thrown error, a navigation
    timeout), the handler's last engine call closes the browser that it
    launched, there is exactly one launch and one close, and once the close
    resolves the processes that run are those that ran before the request.
    When the launch itself rejects there is no process to close. *)
Theorem browser_closed_on_every_exit
    (U : string -> bool) (env : Env) (e : Endpoint) (q : Query) (w : World) :
  validateInput U (q_url q) (Some (deviceParam (q_device q))) = None ->
  let s' := snd (handle U env e q w) in
  match browser s' with
  | None =>
      calls w s' = [Launch launchOptions] /\
      rejects env (trace w) (Launch launchOptions) <> None /\
      procs (world s') = procs w
  | Some pid =>
      ~ In pid (procs w) /\
      hd_error (calls w s') = Some (Launch launchOptions) /\
      last (calls w s') (Launch JNull) = BrowserClose pid /\
      List.length (filter isLaunch (calls w s')) = 1%nat /\
      List.length (filter isBrowserClose (calls w s')) = 1%nat /\
      (rejects env (removelast (trace (world s'))) (BrowserClose pid) = None ->
       procs (world s') = procs w)
  end.
Proof.
  destruct q as [url dev dur], w as [d0 t0 p0 h0].
  cbn [q_url q_device]. intros Hval.
  destruct e; unfold handle, handler, screenshotHandler, screenrecordHandler;
    cbn [q_url q_device q_duration]; rewrite Hval; cbv zeta.
  all: run_handler.
  all: unfold calls; cbn [browser world procs trace].
  all: try (split; [flatten_trace; reflexivity|split; [congruence|reflexivity]]).
  all: split; [apply freshPid_fresh|].
  all: split; [flatten_trace; reflexivity|].
  all: split; [flatten_trace; reflexivity|].
  all: split; [flatten_trace; reflexivity|].
  all: split; [flatten_trace; reflexivity|].
  all: rewrite removelast_last; intros Hclose; try congruence.
  all: apply removePid_launched.
Qed.

Lemma browser_closed_on_every_exit_witness :
  browser (snd (handle hasScheme Sample.unreachable ApiScreenshot
                  Sample.example Sample.world0)) = Some 1%nat /\
  last (calls Sample.world0
          (snd (handle hasScheme Sample.unreachable ApiScreenshot
                  Sample.example Sample.world0)))
       (Launch JNull) = BrowserClose 1 /\
  procs (world (snd (handle hasScheme Sample.unreachable ApiScreenshot
                       Sample.example Sample.world0)))
  = procs Sample.world0.
Proof.
  assert (validateInput hasScheme (q_url Sample.example)
            (Some (deviceParam (q_device Sample.example))) = None) as Hval
    by (vm_compute; reflexivity).
  pose proof (browser_closed_on_every_exit hasScheme Sample.unreachable ApiScreenshot
                Sample.example Sample.world0 Hval) as H.
  cbv zeta in H.
  assert (browser (snd (handle hasScheme Sample.unreachable ApiScreenshot
                          Sample.example Sample.world0)) = Some 1%nat) as E
    by (vm_compute; reflexivity).
  rewrite E in H.
  destruct H as (_ & _ & Hlast & _ & _ & Hprocs).
  split; [exact E|]. split; [exact Hlast|].
  apply Hprocs. vm_compute. reflexivity.
Defined.

(** ** The viewport *)

Ltac in_calls :=
  let H := fresh "Hin" in
  intros ? H; cbn [In] in H;
  repeat (destruct H as [H|H]; [try discriminate H; try (inversion H; subst)|]);
  try contradiction.

Lemma sized_device_viewport
    (U : string -> bool) (env : Env) (e : Endpoint) (q : Query) (w : World) :
  String.eqb (deviceParam (q_device q)) "full" = false ->
  let s' := snd (handle U env e q w) in
  (forall v, In (SetViewportSize v) (calls w s') ->
     v = prop deviceConfigs (deviceParam (q_device q))) /\
  match untilGoto (calls w s') with
  | Some before => viewports before = [prop deviceConfigs (deviceParam (q_device q))]
  | None => True
  end /\
  (forall o, In (Screenshot o) (calls w s') -> prop o "fullPage" = JBool false).
Proof.
  destruct q as [url dev dur], w as [d0 t0 p0 h0].
  cbn [q_url q_device]. intros Hfull.
  destruct e; unfold handle, handler, screenshotHandler, screenrecordHandler;
    cbn [q_url q_device q_duration];
    (destruct (validateInput U url (Some (deviceParam dev))) eqn:Hval);
    cbv zeta.
  all: run; rewrite ?Hfull; cbn [negb]; repeat (branch_any; run).
  all: unfold calls; cbn [world trace]; flatten_trace; rewrite ?skipn_all.
  all: cbn [untilGoto viewports].
  all: split; [in_calls; reflexivity|split; [exact I || reflexivity|]].
  all: in_calls; unfold screenshotOptions; cbn [prop getField String.eqb Ascii.eqb Bool.eqb];
    rewrite Hfull; reflexivity.
Qed.

Lemma full_device_viewport
    (U : string -> bool) (env : Env) (e : Endpoint) (q : Query) (w : World) :
  deviceParam (q_device q) = "full" ->
  let s' := snd (handle U env e q w) in
  (forall v, ~ In (SetViewportSize v) (calls w s')) /\
  (forall o, In (Screenshot o) (calls w s') -> prop o "fullPage" = JBool true).
Proof.
  destruct q as [url dev dur], w as [d0 t0 p0 h0].
  cbn [q_url q_device]. intros Hfull.
  destruct e; unfold handle, handler, screenshotHandler, screenrecordHandler;
    cbn [q_url q_device q_duration]; rewrite Hfull;
    (destruct (validateInput U url (Some "full")) eqn:Hval);
    cbv zeta.
  all: run_handler.
  all: unfold calls; cbn [world trace]; flatten_trace; rewrite ?skipn_all.
  all: split; [unfold not; in_calls|in_calls; reflexivity].
Qed.

Lemma screenshot_calls_when_resolving
    (U : string -> bool) (env : Env) (q : Query) (w : World) :
  validateInput U (q_url q) (Some (deviceParam (q_device q))) = None ->
  (forall h c, rejects env h c = None) ->
  calls w (snd (handle U env ApiScreenshot q w))
  = [Launch launchOptions; BrowserNewPage]
    ++ (if String.eqb (deviceParam (q_device q)) "full" then []
        else [SetViewportSize (prop deviceConfigs (deviceParam (q_device q)))])
    ++ [Goto (q_url q) gotoOptions; WaitForTimeout 2000;
        Screenshot (screenshotOptions (deviceParam (q_device q)));
        BrowserClose (freshPid (procs w))].
Proof.
  destruct q as [url dev dur], w as [d0 t0 p0 h0].
  cbn [q_url q_device procs]. intros Hval Hres.
  unfold handle, handler, screenshotHandler.
  cbn [q_url q_device q_duration]. rewrite Hval.
  run. rewrite !Hres.
  destruct (String.eqb (deviceParam dev) "full"); run; rewrite !Hres; run.
  all: unfold calls; cbn [world trace]; flatten_trace; reflexivity.
Qed.

(** C9: for every device tag in {phone, tablet, laptop, desktop} the
    viewport applied before navigation is the device table's size (phone
    375x667, tablet 768x1024, laptop 1366x768, desktop 1920x1080) and no
    other size is ever applied; for the tag [full] no viewport is applied
    and the screenshot is taken with full-page capture; an absent device
    parameter is handled as [desktop].  When every engine call resolves,
    the screenshot handler applies the viewport between opening the page
    and navigating. *)
Theorem viewport_follows_device_table
    (U : string -> bool) (env : Env) (e : Endpoint)
    (url duration : option string) (w : World) :
  (prop deviceConfigs "phone" = size 375 667 /\
   prop deviceConfigs "tablet" = size 768 1024 /\
   prop deviceConfigs "laptop" = size 1366 768 /\
   prop deviceConfigs "desktop" = size 1920 1080 /\
   prop deviceConfigs "full" = JNull) /\
  (forall device, In device ["phone"; "tablet"; "laptop"; "desktop"] ->
     let s' := snd (handle U env e (mkQuery url (Some device) duration) w) in
     (forall v, In (SetViewportSize v) (calls w s') -> v = prop deviceConfigs device) /\
     match untilGoto (calls w s') with
     | Some before => viewports before = [prop deviceConfigs device]
     | None => True
     end /\
     (forall o, In (Screenshot o) (calls w s') -> prop o "fullPage" = JBool false)) /\
  (let s' := snd (handle U env e (mkQuery url (Some "full") duration) w) in
   (forall v, ~ In (SetViewportSize v) (calls w s')) /\
   (forall o, In (Screenshot o) (calls w s') -> prop o "fullPage" = JBool true)) /\
  handle U env e (mkQuery url None duration) w
  = handle U env e (mkQuery url (Some "desktop") duration) w /\
  (forall device, In device validDevices ->
     validateInput U url (Some device) = None ->
     (forall h c, rejects env h c = None) ->
     calls w (snd (handle U env ApiScreenshot (mkQuery url (Some device) duration) w))
     = [Launch launchOptions; BrowserNewPage]
       ++ (if String.eqb device "full" then []
           else [SetViewportSize (prop deviceConfigs device)])
       ++ [Goto url gotoOptions; WaitForTimeout 2000;
           Screenshot (screenshotOptions device);
           BrowserClose (freshPid (procs w))]).
Proof.
  split; [repeat split; reflexivity|].
  split; [|split; [|split]].
  - intros device Hdev.
    apply (sized_device_viewport U env e (mkQuery url (Some device) duration) w).
    cbn [q_device deviceParam]. cbn [In] in Hdev.
    destruct Hdev as [<-|[<-|[<-|[<-|[]]]]]; reflexivity.
  - apply (full_device_viewport U env e (mkQuery url (Some "full") duration) w).
    reflexivity.
  - destruct e; reflexivity.
  - intros device _ Hval Hres.
    apply (screenshot_calls_when_resolving U env (mkQuery url (Some device) duration) w);
      assumption.
Qed.

Lemma viewport_follows_device_table_witness :
  calls Sample.world0
    (snd (handle hasScheme Sample.calm ApiScreenshot
            (mkQuery (Some "https://example.com") (Some "phone") None) Sample.world0))
  = [Launch launchOptions; BrowserNewPage; SetViewportSize (size 375 667);
     Goto (Some "https://example.com") gotoOptions; WaitForTimeout 2000;
     Screenshot (screenshotOptions "phone"); BrowserClose 1] /\
  (forall v,
     In (SetViewportSize v)
        (calls Sample.world0
           (snd (handle hasScheme Sample.unreachable ApiScreenrecord
                   (mkQuery (Some "https://example.com") (Some "phone") None)
                   Sample.world0))) ->
     v = size 375 667).
Proof.
  pose proof (viewport_follows_device_table hasScheme Sample.calm ApiScreenshot
                (Some "https://example.com") None Sample.world0) as Hcalm.
  pose proof (viewport_follows_device_table hasScheme Sample.unreachable ApiScreenrecord
                (Some "https://example.com") None Sample.world0) as Hun.
  destruct Hcalm as (_ & _ & _ & _ & Hcalls).
  destruct Hun as (_ & Hsized & _).
  assert (validateInput hasScheme (Some "https://example.com") (Some "phone") = None)
    as Hval by (vm_compute; reflexivity).
  split.
  - rewrite (Hcalls "phone" (or_introl eq_refl) Hval (fun _ _ => eq_refl)).
    reflexivity.
  - destruct (Hsized "phone" (or_introl eq_refl)) as (Hv & _).
    intros v Hin. rewrite (Hv v Hin). reflexivity.
Defined.

(** ** The artifact correlation *)


Lemma setWorld_same (s : Handling) : setWorld (world s) s = s.
Proof. destruct s. reflexivity. Qed.

Lemma endsWith_webm_truthy (file : string) :
  endsWith file ".webm" = true -> truthy (Some file) = true.
Proof.
  destruct file; [discriminate|reflexivity].
Qed.



Lemma record_ok (env : Env) (url : option string) (device duration : string)
    (s s1 : Handling) :
  record env url device duration s = (Ok tt, s1) ->
  res s1 = res s /\
  browser s1 = Some (freshPid (procs (world s))) /\
  context s1 = Some tt /\
  procs (world s1) = procs (world s) ++ [freshPid (procs (world s))].
Proof.
  destruct s as [[d0 t0 p0 h0] r0 b0 c0]. revert s1.
  run_all.
  all: intros s1 H; try discriminate H.
  all: inversion H; subst; cbn [res browser context world procs trace].
  all: repeat split; reflexivity.
Qed.




(** ** Error responses *)

Ltac sent_cases :=
  match goal with
  | H : _ \/ _ /\ (exists hs data, _ = Some _) |- _ =>
      destruct H as [H|[_ (? & ? & H)]]; try discriminate H;
      try (inversion H; subst)
  end.

(** Every response with status 500 carries the body built by [errorBody]. *)
Lemma error_response_body
    (U : string -> bool) (env : Env) (e : Endpoint) (q : Query) (w : World)
    (r : Response) :
  response (snd (handle U env e q w)) = Some r ->
  status r = 500 ->
  exists category message,
    body r = Json (errorBody category message) /\
    (category = "Error creating screenshot" \/
     category = "Error creating screen recording").
Proof.
  destruct q as [url dev dur], w as [d0 t0 p0 h0].
  destruct e; unfold handle, handler, screenshotHandler, screenrecordHandler;
    cbn [q_url q_device q_duration];
    (destruct (validateInput U url (Some (deviceParam dev))) eqn:Hval);
    cbv zeta.
  all: run_handler.
  all: intros Hr Hs; try discriminate Hr.
  all: try sent_cases.
  all: try (inversion Hr; subst r; cbn [status] in Hs; try discriminate Hs).
  all: try (cbn [body]; eexists; eexists; split; [reflexivity|tauto]).
Qed.

(** C4, on the code: the body of a 500 response has the fields [status],
    [success], [error] and [message] (and [creator]), but [success] is the
    string ['false'], not the boolean [false]; [/health] uses a boolean for
    the same field.  Evaluated on a screenshot request whose navigation
    times out. *)
Theorem error_body_success_is_a_string :
  response (snd (handle hasScheme Sample.unreachable ApiScreenshot
                   Sample.example Sample.world0))
  = Some (mkResponse 500 [("Content-Type", "application/json; charset=utf-8")]
            (Json (errorBody "Error creating screenshot"
                     "page.goto: Timeout 30000ms exceeded."))) /\
  (forall category message : string,
     prop (errorBody category message) "status" = JNum 500 /\
     prop (errorBody category message) "error" = JStr category /\
     prop (errorBody category message) "message" = JStr message /\
     prop (errorBody category message) "success" = JStr "false" /\
     prop (errorBody category message) "success" <> JBool false) /\
  (forall timestamp : string, prop (healthBody timestamp) "success" = JBool true).
Proof.
  split; [vm_compute; reflexivity|].
  split; [|intros timestamp; reflexivity].
  intros category message.
  repeat split; try reflexivity. discriminate.
Qed.

(** ** A duration that does not parse *)

(** C10: a duration value that does not parse as an integer does not fail
    validation; [/api/screenrecord] handles the request exactly as it
    handles one with no duration, with the default of 10 seconds: the
    response is never a 400 when the address and device are valid, and the
    only waits are the 3-second settle delay and the 10-second recording. *)
Theorem unparsable_duration_uses_default
    (U : string -> bool) (env : Env) (url device : option string) (d : string)
    (w : World) :
  parseInt d = None ->
  recordDuration (durationParam (Some d)) = 10 /\
  recordDuration (durationParam (Some d)) = recordDuration (durationParam None) /\
  handle U env ApiScreenrecord (mkQuery url device (Some d)) w
  = handle U env ApiScreenrecord (mkQuery url device None) w /\
  (validateInput U url (Some (deviceParam device)) = None ->
   let s' := snd (handle U env ApiScreenrecord (mkQuery url device (Some d)) w) in
   (forall r, response s' = Some r -> status r <> 400) /\
   (forall ms, In (WaitForTimeout ms) (calls w s') -> ms = 3000 \/ ms = 10 * 1000)).
Proof.
  intros Hnan.
  assert (recordDuration (durationParam (Some d)) = 10) as Hten.
  { unfold recordDuration, durationParam. rewrite Hnan. reflexivity. }
  split; [exact Hten|]. split; [rewrite Hten; reflexivity|].
  assert (handle U env ApiScreenrecord (mkQuery url device (Some d)) w
          = handle U env ApiScreenrecord (mkQuery url device None) w) as Hsame.
  { unfold handle, handler, screenrecordHandler, record.
    cbn [q_url q_device q_duration]. rewrite Hten.
    change (recordDuration (durationParam None)) with 10. reflexivity. }
  split; [exact Hsame|].
  intros Hval. rewrite Hsame. clear Hsame.
  destruct w as [d0 t0 p0 h0].
  unfold handle, handler, screenrecordHandler.
  cbn [q_url q_device q_duration]. rewrite Hval. cbv zeta.
  change (recordDuration (durationParam None)) with 10.
  run_handler.
  all: unfold calls; cbn [world trace]; flatten_trace.
  all: split; [let resp := fresh "resp" in
               intros resp Hr; try discriminate Hr; try sent_cases;
               try (inversion Hr; subst resp; cbn [status]; discriminate)|].
  all: let wait := fresh "wait" in intros wait Hin; cbn [In] in Hin;
    repeat (destruct Hin as [Hin|Hin];
            [try discriminate Hin; try (inversion Hin; subst; tauto)|]);
    try contradiction.
Qed.

Lemma unparsable_duration_uses_default_witness :
  recordDuration (durationParam (Some "abc")) = 10 /\
  handle hasScheme Sample.calm ApiScreenrecord
    (mkQuery (Some "https://example.com") (Some "phone") (Some "abc")) Sample.world0
  = handle hasScheme Sample.calm ApiScreenrecord
      (mkQuery (Some "https://example.com") (Some "phone") None) Sample.world0.
Proof.
  assert (parseInt "abc" = None) as Hnan by (vm_compute; reflexivity).
  pose proof (unparsable_duration_uses_default hasScheme Sample.calm
                (Some "https://example.com") (Some "phone") "abc" Sample.world0 Hnan)
    as H.
  destruct H as (Hten & _ & Hsame & _).
  split; [exact Hten|exact Hsame].
Defined.

(** * Further properties of the code *)

(** ** More on the retention sweeper *)

Lemma swept_deleted (now : Z) (d : Dir) (e : string * File) :
  In e d -> ~ In e (swept now d) ->
  expired now (snd e) = true /\
  statThrows (snd e) = false /\ unlinkThrows (snd e) = false.
Proof.
  induction d as [|x d IH]; simpl; [tauto|].
  destruct (statThrows (snd x)) eqn:Es; [simpl; tauto|].
  destruct (expired now (snd x)) eqn:Ex.
  - destruct (unlinkThrows (snd x)) eqn:Eu; [simpl; tauto|].
    intros [->|Hin] Hout; [tauto|]. apply IH; assumption.
  - simpl. intros [->|Hin] Hout; [tauto|]. apply IH; tauto.
Qed.

Lemma swept_idempotent (now : Z) (d : Dir) :
  swept now (swept now d) = swept now d.
Proof.
  induction d as [|x d IH]; [reflexivity|].
  cbn [swept].
  destruct (statThrows (snd x)) eqn:Es.
  { cbn [swept]. rewrite Es. reflexivity. }
  destruct (expired now (snd x)) eqn:Ex.
  - destruct (unlinkThrows (snd x)) eqn:Eu; [|exact IH].
    cbn [swept]. rewrite Es, Ex, Eu. reflexivity.
  - cbn [swept]. rewrite Es, Ex, IH. reflexivity.
Qed.

(** X1: a sweep only removes entries.  What it leaves is part of what was
    there, with names still distinct, and the clock, the processes and the
    log of engine calls are as before; an entry is removed only when it is
    expired and both [statSync] and [unlinkSync] succeed on it. *)
Theorem sweep_only_removes (w : World) :
  NoDup (map fst (tempDir w)) ->
  let w' := snd (cleanupTempFiles w) in
  (forall e, In e (tempDir w') -> In e (tempDir w)) /\
  NoDup (map fst (tempDir w')) /\
  clock w' = clock w /\ procs w' = procs w /\ trace w' = trace w /\
  (forall e, In e (tempDir w) -> ~ In e (tempDir w') ->
     expired (clock w) (snd e) = true /\
     statThrows (snd e) = false /\ unlinkThrows (snd e) = false).
Proof.
  intros Hnd w'. unfold w'. rewrite (cleanupTempFiles_swept w Hnd).
  cbn [snd tempDir clock procs trace setTempDir].
  split; [intros e; apply swept_incl|].
  split; [apply swept_NoDup, Hnd|].
  repeat (split; [reflexivity|]).
  intros e. apply swept_deleted.
Qed.

Lemma sweep_only_removes_witness :
  NoDup (map fst (tempDir (snd (cleanupTempFiles Sample.jammed)))) /\
  clock (snd (cleanupTempFiles Sample.jammed)) = clock Sample.jammed /\
  expired (clock Sample.jammed) (Sample.plain (Sample.minutes 10) []) = true.
Proof.
  pose proof (sweep_only_removes Sample.jammed
                (distinctNames_NoDup (tempDir Sample.jammed) eq_refl)) as H.
  cbv zeta in H. destruct H as (_ & Hnd & Hclock & _ & _ & Hgone).
  split; [exact Hnd|]. split; [exact Hclock|].
  apply (Hgone ("first.webm", Sample.plain (Sample.minutes 10) [])).
  - simpl. left. reflexivity.
  - vm_compute. intros [H|[H|[]]]; discriminate H.
Defined.

(** X2: a second sweep at the same instant changes nothing, also when the
    first one was cut short by an error. *)
Theorem sweep_twice_is_sweep_once (w : World) :
  NoDup (map fst (tempDir w)) ->
  cleanupTempFiles (snd (cleanupTempFiles w))
  = (Ok tt, snd (cleanupTempFiles w)).
Proof.
  intros Hnd. rewrite (cleanupTempFiles_swept w Hnd). cbn [snd].
  rewrite cleanupTempFiles_swept.
  - cbn [tempDir clock setTempDir]. rewrite swept_idempotent. reflexivity.
  - cbn [tempDir setTempDir]. apply swept_NoDup, Hnd.
Qed.

Lemma sweep_twice_is_sweep_once_witness :
  cleanupTempFiles (snd (cleanupTempFiles Sample.jammed))
  = (Ok tt, snd (cleanupTempFiles Sample.jammed)).
Proof.
  apply (sweep_twice_is_sweep_once Sample.jammed).
  apply distinctNames_NoDup. reflexivity.
Defined.

(** X3: after a sweep whose [fs] calls succeed, every entry left in the
    temporary directory is at most 30 minutes old; so until the next sweep,
    one interval of [setInterval] later, none of them is older than 60
    minutes, and the next sweep removes each of them that was not modified
    since this one. *)
Theorem swept_directory_is_young (w : World) :
  NoDup (map fst (tempDir w)) ->
  sweepable (clock w) (tempDir w) = true ->
  let w' := snd (cleanupTempFiles w) in
  forall name f, In (name, f) (tempDir w') ->
    clock w - mtime f <= thirtyMinutes /\
    (forall t, t <= clock w + sweepInterval -> t - mtime f <= 60 * 60 * 1000) /\
    (forall w2, NoDup (map fst (tempDir w2)) ->
       sweepable (clock w2) (tempDir w2) = true ->
       clock w + sweepInterval <= clock w2 ->
       In (name, f) (tempDir w2) -> mtime f < clock w ->
       lookupFile (tempDir (snd (cleanupTempFiles w2))) name = None).
Proof.
  intros Hnd Hok w' name f Hin.
  unfold w' in Hin. rewrite (cleanupTempFiles_swept w Hnd) in Hin.
  cbn [snd tempDir setTempDir] in Hin.
  rewrite (swept_sweepable _ _ Hok) in Hin.
  apply filter_In in Hin. destruct Hin as [_ Hyoung].
  cbn [snd] in Hyoung. apply negb_true_iff in Hyoung.
  unfold expired in Hyoung. rewrite Z.gtb_ltb in Hyoung. apply Z.ltb_ge in Hyoung.
  split; [exact Hyoung|].
  unfold thirtyMinutes in Hyoung. unfold sweepInterval.
  split; [intros t Ht; lia|].
  intros w2 Hnd2 Hok2 Hlater Hin2 Hold.
  rewrite (cleanupTempFiles_swept w2 Hnd2). cbn [snd tempDir setTempDir].
  rewrite (swept_sweepable _ _ Hok2).
  rewrite (lookupFile_filter (fun f => negb (expired (clock w2) f)) _ name f Hnd2 Hin2).
  assert (expired (clock w2) f = true) as Hexp.
  { unfold expired, thirtyMinutes. apply Z.gtb_lt. lia. }
  rewrite Hexp. reflexivity.
Qed.

Lemma swept_directory_is_young_witness :
  Sample.minutes 60 - mtime (Sample.plain (Sample.minutes 55) []) <= thirtyMinutes.
Proof.
  apply (swept_directory_is_young Sample.aged
           (distinctNames_NoDup (tempDir Sample.aged) eq_refl) eq_refl
           "new.webm" (Sample.plain (Sample.minutes 55) [])).
  vm_compute. left. reflexivity.
Defined.

(** ** More on what the artifact correlation leaves *)

Lemma bind_Ok {S A B} (m : M S A) (k : A -> M S B) (s s' : S) (b : B) :
  bind m k s = (Ok b, s') ->
  exists a s1, m s = (Ok a, s1) /\ k a s1 = (Ok b, s').
Proof.
  unfold bind. destruct (m s) as [[a|e] s1]; [|discriminate].
  intros H. exists a, s1. split; [reflexivity|exact H].
Qed.

Lemma hasHeader_putHeader_same (name value : string) (hs : list (string * string)) :
  hasHeader name (putHeader name value hs) = true.
Proof.
  unfold hasHeader, putHeader. rewrite existsb_app. cbn [existsb fst].
  rewrite String.eqb_refl. rewrite !orb_true_r. reflexivity.
Qed.

Lemma hasHeader_putHeader_other (name other value : string)
    (hs : list (string * string)) :
  String.eqb name other = false ->
  hasHeader name hs = true ->
  hasHeader name (putHeader other value hs) = true.
Proof.
  unfold hasHeader, putHeader. intros Hne H.
  rewrite existsb_app. apply orb_true_iff. left.
  apply existsb_exists in H. destruct H as (h & Hin & Hh).
  apply existsb_exists. exists h. split; [|exact Hh].
  apply filter_In. split; [exact Hin|].
  apply String.eqb_eq in Hh. rewrite Hh, Hne. reflexivity.
Qed.

(** When the correlation returns normally, the recording has been sent. *)
Lemma sendRecording_ok_sent (device recordingId : string) (s s' : Handling) :
  sendRecording device recordingId s = (Ok tt, s') ->
  exists hs data,
    sent (res s') = Some (mkResponse (statusCode (res s)) hs (Buffer data)) /\
    hasHeader "Content-Type" hs = true.
Proof.
  unfold sendRecording. intros H.
  apply bind_Ok in H. destruct H as (files & s1 & Hdir & H).
  apply bind_Ok in H. destruct H as (videoFile & s2 & Hfind & H).
  destruct (negb (truthy videoFile)); [discriminate H|].
  destruct videoFile as [videoPath|]; [|discriminate H].
  apply bind_Ok in H. destruct H as (videoBuffer & s3 & Hread & H).
  apply bind_Ok in H. destruct H as ([] & s4 & Hct & H).
  apply bind_Ok in H. destruct H as ([] & s5 & Hcd & H).
  apply bind_Ok in H. destruct H as ([] & s6 & Hsend & Hunlink).
  apply Framed_readdirSync in Hdir.
  apply (Framed_find _ _ (fun file =>
           Framed_bind _ _ (Framed_statSync file)
             (fun mt => Framed_bind _ _ Framed_dateNow (fun now => Framed_ret _))))
    in Hfind.
  apply Framed_readFileSync in Hread.
  apply Framed_unlinkSync in Hunlink.
  pose proof (framed_trans _ _ _ (framed_trans _ _ _ Hdir Hfind) Hread) as H03.
  destruct H03 as (_ & _ & _ & _ & _ & Hcode & _).
  unfold resSetHeader, bind, gets, modify in Hct.
  destruct (sent (res s3)) eqn:E3; [discriminate Hct|].
  inversion Hct; subst s4. clear Hct.
  unfold resSetHeader, bind, gets, modify in Hcd.
  cbn [res setRes sent statusCode headers] in Hcd.
  inversion Hcd; subst s5. clear Hcd.
  unfold resSend, bind, gets, modify in Hsend.
  cbn [res setRes sent statusCode headers] in Hsend.
  inversion Hsend; subst s6. clear Hsend.
  destruct Hunlink as (_ & _ & _ & _ & _ & _ & [Hsame|[Hnone _]]).
  - cbn [res setRes sent statusCode headers] in Hsame.
    rewrite Hsame, Hcode. eexists. eexists. split; [reflexivity|].
    apply hasHeader_putHeader_other; [reflexivity|].
    apply hasHeader_putHeader_same.
  - discriminate Hnone.
Qed.

Lemma removeFile_incl (d : Dir) (name : string) (e : string * File) :
  In e (removeFile d name) -> In e d.
Proof.
  induction d as [|x d IH]; simpl; [tauto|].
  destruct (String.eqb (fst x) name); simpl; [tauto|].
  intros [H|H]; [left; exact H|right; apply IH, H].
Qed.

Lemma Shrinking_framed_dir {A} (m : M Handling A) :
  (forall s r s', m s = (r, s') -> tempDir (world s') = tempDir (world s)) ->
  Shrinking m.
Proof. intros H s r s' E e. rewrite (H s r s' E). tauto. Qed.

Lemma Shrinking_bind {A B} (m : M Handling A) (k : A -> M Handling B) :
  Shrinking m -> (forall a, Shrinking (k a)) -> Shrinking (bind m k).
Proof.
  intros Hm Hk s r s' H e He. unfold bind in H.
  destruct (m s) as [[a|x] s1] eqn:E.
  - apply (Hm _ _ _ E). apply (Hk a _ _ _ H). exact He.
  - inversion H; subst. apply (Hm _ _ _ E). exact He.
Qed.

Lemma Shrinking_ret {A} (a : A) : Shrinking (ret a).
Proof. intros s r s' H. inversion H. tauto. Qed.

Lemma Shrinking_throw {A} (x : string) : Shrinking (@throw Handling A x).
Proof. intros s r s' H. inversion H. tauto. Qed.

Lemma Shrinking_statSync (file : string) : Shrinking (inWorld (Fs.statSync file)).
Proof.
  apply Shrinking_framed_dir. intros s r s' H.
  unfold inWorld in H. rewrite statSync_run in H.
  destruct (lookupFile _ _) as [f|]; [destruct (statThrows f)|];
    inversion H; reflexivity.
Qed.

Lemma Shrinking_readFileSync (file : string) :
  Shrinking (inWorld (Fs.readFileSync file)).
Proof.
  apply Shrinking_framed_dir. intros s r s' H.
  unfold inWorld in H. rewrite readFileSync_run in H.
  destruct (lookupFile _ _) as [f|]; [destruct (readThrows f)|];
    inversion H; reflexivity.
Qed.

Lemma Shrinking_unlinkSync (file : string) :
  Shrinking (inWorld (Fs.unlinkSync file)).
Proof.
  intros s r s' H e. unfold inWorld in H. rewrite unlinkSync_run in H.
  destruct (lookupFile _ _) as [f|]; [destruct (unlinkThrows f)|];
    inversion H; cbn [world setWorld tempDir setTempDir]; try tauto.
  apply removeFile_incl.
Qed.

Lemma Shrinking_resSetHeader (name value : string) :
  Shrinking (resSetHeader name value).
Proof.
  apply Shrinking_framed_dir. intros s r s' H.
  unfold resSetHeader, bind, gets in H.
  destruct (sent (res s)); inversion H; reflexivity.
Qed.

Lemma Shrinking_resSend (b : Body) : Shrinking (resSend b).
Proof.
  apply Shrinking_framed_dir. intros s r s' H.
  unfold resSend, bind, gets in H.
  destruct (sent (res s)); inversion H; reflexivity.
Qed.

Lemma Shrinking_find {A} (xs : list A) (p : A -> M Handling bool) :
  (forall x, Shrinking (p x)) -> Shrinking (find xs p).
Proof.
  intros Hp. induction xs as [|x xs IH]; simpl.
  - apply Shrinking_ret.
  - apply Shrinking_bind; [apply Hp|].
    intros [|]; [apply Shrinking_ret|exact IH].
Qed.

Lemma Shrinking_sendRecording (device recordingId : string) :
  Shrinking (sendRecording device recordingId).
Proof.
  unfold sendRecording.
  apply Shrinking_bind.
  { apply Shrinking_framed_dir. intros s r s' H. inversion H. reflexivity. }
  intros files. apply Shrinking_bind.
  { apply Shrinking_find. intros file.
    apply Shrinking_bind; [apply Shrinking_statSync|]. intros mt.
    apply Shrinking_bind; [|intros now; apply Shrinking_ret].
    apply Shrinking_framed_dir. intros s r s' H. inversion H. reflexivity. }
  intros videoFile.
  destruct (negb (truthy videoFile)); [apply Shrinking_throw|].
  destruct videoFile as [videoPath|]; [|apply Shrinking_throw].
  apply Shrinking_bind; [apply Shrinking_readFileSync|]. intros videoBuffer.
  apply Shrinking_bind; [apply Shrinking_resSetHeader|]. intros _.
  apply Shrinking_bind; [apply Shrinking_resSetHeader|]. intros _.
  apply Shrinking_bind; [apply Shrinking_resSend|]. intros _.
  apply Shrinking_unlinkSync.
Qed.

(** ** Files that are not recordings *)

Lemma removeFile_keeps (d : Dir) (name : string) (e : string * File) :
  In e d -> fst e <> name -> In e (removeFile d name).
Proof.
  induction d as [|x d IH]; simpl; [tauto|].
  intros [->|Hin] Hne.
  - destruct (String.eqb (fst e) name) eqn:E.
    + apply String.eqb_eq in E. contradiction.
    + left. reflexivity.
  - destruct (String.eqb (fst x) name); [exact Hin|].
    right. apply IH; assumption.
Qed.

Lemma Keeping_framed_dir {A} (m : M Handling A) :
  (forall s r s', m s = (r, s') -> tempDir (world s') = tempDir (world s)) ->
  Keeping m.
Proof. intros H s r s' E e. rewrite (H s r s' E). tauto. Qed.

Lemma Keeping_bind {A B} (P : A -> Prop) (m : M Handling A) (k : A -> M Handling B) :
  Keeping m ->
  (forall s a s1, m s = (Ok a, s1) -> P a) ->
  (forall a, P a -> Keeping (k a)) ->
  Keeping (bind m k).
Proof.
  intros Hm HP Hk s r s' H e He Hweb. unfold bind in H.
  destruct (m s) as [[a|x] s1] eqn:E.
  - apply (Hk a (HP _ _ _ E) _ _ _ H); [|exact Hweb].
    apply (Hm _ _ _ E); assumption.
  - inversion H; subst. apply (Hm _ _ _ E); assumption.
Qed.

Lemma Keeping_ret {A} (a : A) : Keeping (ret a).
Proof. intros s r s' H. inversion H. tauto. Qed.

Lemma Keeping_throw {A} (x : string) : Keeping (@throw Handling A x).
Proof. intros s r s' H. inversion H. tauto. Qed.

Lemma Keeping_find {A} (xs : list A) (p : A -> M Handling bool) :
  (forall x, Keeping (p x)) -> Keeping (find xs p).
Proof.
  intros Hp. induction xs as [|x xs IH]; simpl.
  - apply Keeping_ret.
  - apply (Keeping_bind (fun _ => True)); [apply Hp|tauto|].
    intros [|] _; [apply Keeping_ret|exact IH].
Qed.

(** What [find] returns is an element of the list. *)
Lemma find_Some_In {S A} (xs : list A) (p : A -> M S bool) (s s' : S) (x : A) :
  find xs p s = (Ok (Some x), s') -> In x xs.
Proof.
  revert s. induction xs as [|y xs IH]; intros s; simpl.
  - unfold ret. intros H. inversion H.
  - unfold bind. destruct (p y s) as [[[|]|msg] s1]; intros H.
    + inversion H. left. reflexivity.
    + right. apply (IH s1 H).
    + discriminate H.
Qed.

Lemma Keeping_unlinkSync_webm (file : string) :
  endsWith file ".webm" = true -> Keeping (inWorld (Fs.unlinkSync file)).
Proof.
  intros Hweb s r s' H e He Hother. unfold inWorld in H. rewrite unlinkSync_run in H.
  destruct (lookupFile _ _) as [f|]; [destruct (unlinkThrows f)|];
    inversion H; cbn [world setWorld tempDir setTempDir]; try exact He.
  apply removeFile_keeps; [exact He|].
  intros Heq. rewrite Heq, Hweb in Hother. discriminate Hother.
Qed.

Lemma Keeping_sendRecording (device recordingId : string) :
  Keeping (sendRecording device recordingId).
Proof.
  unfold sendRecording.
  apply (Keeping_bind (fun _ => True)); [|tauto|].
  { apply Keeping_framed_dir. intros s r s' H. inversion H. reflexivity. }
  intros files _.
  apply (Keeping_bind (fun videoFile =>
           forall path, videoFile = Some path -> endsWith path ".webm" = true)).
  { apply Keeping_find. intros file.
    apply (Keeping_bind (fun _ => True)); [|tauto|].
    { apply Keeping_framed_dir. intros s r s' H.
      unfold inWorld in H. rewrite statSync_run in H.
      destruct (lookupFile _ _) as [f|]; [destruct (statThrows f)|];
        inversion H; reflexivity. }
    intros mt _.
    apply (Keeping_bind (fun _ => True)); [|tauto|intros now _; apply Keeping_ret].
    apply Keeping_framed_dir. intros s r s' H. inversion H. reflexivity. }
  { intros s [path|] s1 Hfind path' Heq; [|discriminate Heq].
    inversion Heq; subst path'.
    apply find_Some_In in Hfind. apply filter_In in Hfind. tauto. }
  intros videoFile Hweb.
  destruct (negb (truthy videoFile)); [apply Keeping_throw|].
  destruct videoFile as [videoPath|]; [|apply Keeping_throw].
  apply (Keeping_bind (fun _ => True)); [|tauto|].
  { apply Keeping_framed_dir. intros s r s' H.
    unfold inWorld in H. rewrite readFileSync_run in H.
    destruct (lookupFile _ _) as [f|]; [destruct (readThrows f)|];
      inversion H; reflexivity. }
  intros videoBuffer _.
  apply (Keeping_bind (fun _ => True)); [|tauto|].
  { apply Keeping_framed_dir. intros s r s' H.
    unfold resSetHeader, bind, gets in H.
    destruct (sent (res s)); inversion H; reflexivity. }
  intros _ _.
  apply (Keeping_bind (fun _ => True)); [|tauto|].
  { apply Keeping_framed_dir. intros s r s' H.
    unfold resSetHeader, bind, gets in H.
    destruct (sent (res s)); inversion H; reflexivity. }
  intros _ _.
  apply (Keeping_bind (fun _ => True)); [|tauto|].
  { apply Keeping_framed_dir. intros s r s' H.
    unfold resSend, bind, gets in H.
    destruct (sent (res s)); inversion H; reflexivity. }
  intros _ _.
  apply Keeping_unlinkSync_webm. apply Hweb. reflexivity.
Qed.

(** ** Tactics for the log of calls *)

Ltac enter U url dev :=
  unfold handle, handler, screenshotHandler, screenrecordHandler;
  cbn [q_url q_device q_duration];
  (destruct (validateInput U url (Some (deviceParam dev))) eqn:Hval);
  cbv zeta.

Ltac members :=
  intros;
  match goal with
  | H : In _ _ |- _ =>
      cbn [In] in H;
      repeat (destruct H as [H|H]; [try discriminate H; try (inversion H; subst)|]);
      try contradiction
  end.

Ltac in_list := cbn [In]; solve [repeat (first [left; reflexivity | right])].

Ltac log := unfold calls; cbn [world trace fst snd]; flatten_trace; rewrite ?skipn_all.





Ltac dir_of_world := cbn [world tempDir].

(** The artifact correlation is replaced by what it may leave, with what
    it sent and what it left of [tempDir]. *)
Ltac correlate_fully :=
  match goal with
  | |- context [sendRecording ?d ?i ?s] =>
      let E := fresh "E" in
      let F := fresh "F" in
      let D := fresh "Hdir" in
      let S := fresh "Hsent" in
      let K := fresh "Hkeep" in
      destruct (sendRecording d i s) as [[[]|?] [[? ? ? ?] [? ? ?] ? ?]] eqn:E;
      pose proof (Framed_sendRecording d i _ _ _ E) as F;
      pose proof (Shrinking_sendRecording d i _ _ _ E) as D;
      pose proof (Keeping_sendRecording d i _ _ _ E) as K;
      try (pose proof (sendRecording_ok_sent d i _ _ E) as S;
           cbn [res sent statusCode] in S;
           destruct S as (? & ? & S & ?));
      unfold framed in F;
      cbn [browser context world clock procs trace res statusCode sent tempDir]
        in F, D, K;
      destruct F as (? & ? & ? & ? & ? & ? & ?); subst; clear E
  end.

Ltac branch_fully :=
  first
    [ branch
    | correlate_fully
    | match goal with
      | |- context [if hasHeader ?n ?l then _ else _] =>
          destruct (hasHeader n l) eqn:?
      | |- context [match ?x with Some _ => _ | None => _ end] =>
          is_var x; destruct x
      end ].

Ltac run_recording := run; repeat (branch_fully; run).

(** ** More on the screenshot handler *)



(** ** More on both capture handlers *)

Lemma validateInput_None_url (U : string -> bool) (url device : option string) :
  validateInput U url device = None ->
  exists s, url = Some s /\ s <> "" /\ U s = true.
Proof.
  unfold validateInput. destruct url as [s|]; [|discriminate].
  destruct (truthy (Some s)) eqn:Et; cbn [negb]; [|discriminate].
  destruct (U s) eqn:EU; cbn [negb]; [|discriminate].
  intros _. exists s. split; [reflexivity|]. split; [|exact EU].
  apply truthy_Some. exact Et.
Qed.

(** X5: a capture handler navigates at most once, and only to the address
    of the request, which has passed validation (it is not empty and it
    parses as a URL), waiting for network idle with a 30-second timeout. *)
Theorem navigation_targets_validated_address
    (U : string -> bool) (env : Env) (e : Endpoint) (q : Query) (w : World) :
  let s' := snd (handle U env e q w) in
  (forall u o, In (Goto u o) (calls w s') ->
     (exists s, u = Some s /\ q_url q = Some s /\ s <> "" /\ U s = true) /\
     prop o "waitUntil" = JStr "networkidle" /\
     prop o "timeout" = JNum 30000) /\
  (List.length (filter isGoto (calls w s')) <= 1)%nat.
Proof.
  destruct q as [url dev dur], w as [d0 t0 p0 h0].
  cbv zeta. cbn [q_url q_device].
  destruct e; enter U url dev.
  all: run_handler.
  all: log.
  all: split; [|cbn [filter isGoto List.length]; lia].
  all: members.
  all: split; [|split; reflexivity].
  all: let a := fresh "address" in
       destruct (validateInput_None_url _ _ _ Hval) as (a & -> & ? & ?);
       exists a; repeat split; assumption.
Qed.

(** X6: the timers that one request asks for add up to at most 2 seconds
    on [/api/screenshot] and at most 35 seconds on [/api/screenrecord]
    (3 to settle, at most 30 of recording, 2 after closing the context),
    whatever the duration parameter. *)
Theorem timers_are_bounded
    (U : string -> bool) (env : Env) (e : Endpoint) (q : Query) (w : World) :
  let s' := snd (handle U env e q w) in
  0 <= totalDelay (calls w s') <=
    match e with
    | ApiScreenshot => 2000
    | ApiScreenrecord => 35000
    end.
Proof.
  destruct q as [url dev dur], w as [d0 t0 p0 h0].
  cbv zeta.
  pose proof (recordDuration_le_30 (durationParam dur)) as Hdur.
  destruct e; enter U url dev.
  all: run_handler.
  all: log.
  all: cbn [totalDelay fold_right timerDelay].
  all: lia.
Qed.

(** X7: a capture handler starts at most one browser process and stops no
    process but that one: the processes that ran before the request still
    run after it, and the only one that may have been added is the
    handler's own, when its [browser.close()] rejected. *)
Theorem other_processes_are_untouched
    (U : string -> bool) (env : Env) (e : Endpoint) (q : Query) (w : World) :
  let s' := snd (handle U env e q w) in
  procs (world s') = procs w \/
  (procs (world s') = procs w ++ [freshPid (procs w)] /\
   exists h m, rejects env h (BrowserClose (freshPid (procs w))) = Some m).
Proof.
  destruct q as [url dev dur], w as [d0 t0 p0 h0].
  cbv zeta.
  destruct e; enter U url dev.
  all: run_handler.
  all: cbn [world procs].
  all: rewrite ?removePid_launched.
  all: first [left; reflexivity|right; split; [reflexivity|]].
  all: match goal with
       | H : rejects _ ?h (BrowserClose _) = Some ?m |- _ => exists h, m; exact H
       end.
Qed.

(** X8: every response of a capture endpoint is one of three kinds: a 200
    with a binary body, the 400 that carries the validation message, or a
    500 with the error body; and a response is a 400 exactly when
    validation fails. *)
Theorem response_kinds
    (U : string -> bool) (env : Env) (e : Endpoint) (q : Query) (w : World)
    (resp : Response) :
  response (snd (handle U env e q w)) = Some resp ->
  match validateInput U (q_url q) (Some (deviceParam (q_device q))) with
  | Some m =>
      resp = mkResponse 400 [("Content-Type", "application/json; charset=utf-8")]
               (Json (JObj [("error", JStr m)]))
  | None =>
      (status resp = 200 /\ exists data, body resp = Buffer data) \/
      (status resp = 500 /\
       exists message,
         body resp
         = Json (errorBody match e with
                           | ApiScreenshot => "Error creating screenshot"
                           | ApiScreenrecord => "Error creating screen recording"
                           end message))
  end.
Proof.
  destruct q as [url dev dur], w as [d0 t0 p0 h0].
  cbn [q_url q_device].
  destruct e; enter U url dev.
  all: run_handler.
  all: intros Hr; try discriminate Hr.
  all: try sent_cases.
  all: inversion Hr; subst resp; cbn [status body].
  all: try reflexivity.
  all: first [ left; split; [reflexivity|eexists; reflexivity]
             | right; split; [reflexivity|eexists; reflexivity] ].
Qed.

Lemma response_kinds_witness :
  exists message,
    body (mkResponse 500 [("Content-Type", "application/json; charset=utf-8")]
            (Json (errorBody "Error creating screenshot"
                     "page.goto: Timeout 30000ms exceeded.")))
    = Json (errorBody "Error creating screenshot" message).
Proof.
  assert (response (snd (handle hasScheme Sample.unreachable ApiScreenshot
                           Sample.example Sample.world0))
          = Some (mkResponse 500 [("Content-Type", "application/json; charset=utf-8")]
                    (Json (errorBody "Error creating screenshot"
                             "page.goto: Timeout 30000ms exceeded."))))
    as Hresp by (vm_compute; reflexivity).
  pose proof (response_kinds hasScheme Sample.unreachable ApiScreenshot
                Sample.example Sample.world0 _ Hresp) as H.
  assert (validateInput hasScheme (q_url Sample.example)
            (Some (deviceParam (q_device Sample.example))) = None) as Hval
    by (vm_compute; reflexivity).
  rewrite Hval in H.
  destruct H as [[Hs _]|[_ H]]; [discriminate Hs|exact H].
Defined.

(** ** More on the recording handler *)

(** X9: the recording context is created with [recordVideo.dir] set to
    the constant [tempDir], the path of the temporary directory, and with
    [recordVideo.size] set to the size of the device's viewport, and to
    1920x1080 for [full]; [/api/screenshot] creates no context. *)
Theorem recording_context_options
    (U : string -> bool) (env : Env) (q : Query) (w : World) :
  let device := deviceParam (q_device q) in
  (forall o,
     In (BrowserNewContext o) (calls w (snd (handle U env ApiScreenrecord q w))) ->
     prop (prop o "recordVideo") "dir" = JStr (tempDirPath env) /\
     prop (prop o "recordVideo") "size"
     = if String.eqb device "full" then size 1920 1080
       else prop deviceConfigs device) /\
  (forall o,
     ~ In (BrowserNewContext o) (calls w (snd (handle U env ApiScreenshot q w)))) /\
  (forall o v,
     In (BrowserNewContext o) (calls w (snd (handle U env ApiScreenrecord q w))) ->
     In (SetViewportSize v) (calls w (snd (handle U env ApiScreenrecord q w))) ->
     prop (prop o "recordVideo") "size" = v).
Proof.
  destruct q as [url dev dur], w as [d0 t0 p0 h0].
  cbv zeta. cbn [q_url q_device].
  split; [|split].
  - enter U url dev.
    all: run_handler.
    all: log.
    all: members.
    all: unfold recordVideoOptions; cbn [prop getField String.eqb Ascii.eqb Bool.eqb].
    all: match goal with H : String.eqb _ "full" = _ |- _ => rewrite H end.
    all: split; reflexivity.
  - enter U url dev.
    all: run_handler.
    all: log.
    all: unfold not; members.
  - enter U url dev.
    all: run_handler.
    all: log.
    all: intros o v Ho Hv; cbn [In] in Ho, Hv.
    all: repeat (destruct Ho as [Ho|Ho]; [try discriminate Ho|]); try contradiction.
    all: repeat (destruct Hv as [Hv|Hv]; [try discriminate Hv|]); try contradiction.
    all: inversion Ho; inversion Hv; subst.
    all: unfold recordVideoOptions; cbn [prop getField String.eqb Ascii.eqb Bool.eqb].
    all: match goal with H : String.eqb _ "full" = false |- _ => rewrite H end.
    all: reflexivity.
Qed.

(** X10: on [/api/screenrecord] the context, once created, is closed:
    [context.close()] is called once, or twice when the [catch] block runs
    after the first close; it is never called when no context was
    created, and never by [/api/screenshot]. *)
Theorem recording_context_is_closed
    (U : string -> bool) (env : Env) (q : Query) (w : World) :
  let s' := snd (handle U env ApiScreenrecord q w) in
  let n := List.length (filter isContextClose (calls w s')) in
  match context s' with
  | Some _ => (1 <= n <= 2)%nat
  | None => n = 0%nat
  end /\
  List.length (filter isContextClose
                 (calls w (snd (handle U env ApiScreenshot q w)))) = 0%nat.
Proof.
  destruct q as [url dev dur], w as [d0 t0 p0 h0].
  cbv zeta. cbn [q_url q_device].
  split.
  - enter U url dev.
    all: run_handler.
    all: log; cbn [context filter isContextClose List.length]; lia.
  - enter U url dev.
    all: run_handler.
    all: log; reflexivity.
Qed.

(** X11: [/api/screenrecord] can leave a request without any response.
    That happens only when the [catch] block's [context.close()] rejects:
    the 500 is then never sent and the handler's promise rejects. *)
Theorem recording_without_response
    (U : string -> bool) (env : Env) (q : Query) (w : World) :
  let out := handle U env ApiScreenrecord q w in
  response (snd out) = None ->
  context (snd out) = Some tt /\
  (exists message, fst out = Throw message) /\
  (exists h message,
     rejects env h ContextClose = Some message /\
     In ContextClose (calls w (snd out))).
Proof.
  destruct q as [url dev dur], w as [d0 t0 p0 h0].
  cbv zeta. cbn [q_url q_device].
  enter U url dev.
  all: run_recording.
  all: intros Hnone; try discriminate Hnone.
  all: try (sent_cases; fail).
  all: split; [reflexivity|].
  all: split; [eexists; reflexivity|].
  all: match goal with
       | H : rejects _ ?h ContextClose = Some ?m |- _ =>
           exists h, m; split; [exact H|log; in_list]
       end.
Qed.

Lemma recording_without_response_witness :
  exists message,
    fst (handle hasScheme Sample.wedged ApiScreenrecord Sample.example Sample.world0)
    = Throw message.
Proof.
  assert (response (snd (handle hasScheme Sample.wedged ApiScreenrecord
                           Sample.example Sample.world0)) = None) as Hnone
    by (vm_compute; reflexivity).
  destruct (recording_without_response hasScheme Sample.wedged Sample.example
              Sample.world0 Hnone) as (_ & Hthrow & _).
  exact Hthrow.
Defined.

Lemma find_recent_scan (s : Handling) (rest : Dir) :
  (forall n f, In (n, f) rest -> lookupFile (tempDir (world s)) n = Some f) ->
  (forall e, In e rest -> endsWith (fst e) ".webm" = true ->
             statThrows (snd e) = false) ->
  find (filter (fun file => endsWith file ".webm") (map fst rest))
       (fun file =>
          mt <- inWorld (Fs.statSync file) ;;
          now <- inWorld dateNow ;;
          ret (mt >? now - 10000)) s
  = (Ok (option_map fst (List.find (recent (clock (world s))) rest)), s).
Proof.
  induction rest as [|[n f] rest IH]; intros Hlook Hstat; [reflexivity|].
  cbn [map fst filter List.find]. unfold recent at 1. cbn [fst snd].
  assert (forall n f, In (n, f) rest -> lookupFile (tempDir (world s)) n = Some f)
    as Hlook'.
  { intros n' f' Hin. apply Hlook. right. exact Hin. }
  assert (forall e, In e rest -> endsWith (fst e) ".webm" = true ->
                    statThrows (snd e) = false) as Hstat'.
  { intros e Hin. apply Hstat. right. exact Hin. }
  destruct (endsWith n ".webm") eqn:Eweb; cbn [andb].
  - cbn [find]. unfold bind at 1. unfold bind at 1. unfold inWorld at 1.
    rewrite statSync_run. rewrite (Hlook n f (or_introl eq_refl)).
    pose proof (Hstat (n, f) (or_introl eq_refl) Eweb) as Hs.
    cbn [snd] in Hs. rewrite Hs.
    rewrite setWorld_same.
    unfold bind at 1. unfold inWorld at 1, dateNow, gets. rewrite setWorld_same.
    unfold ret at 1.
    destruct (mtime f >? clock (world s) - 10000); [reflexivity|].
    apply IH; assumption.
  - apply IH; assumption.
Qed.

Lemma sendRecording_unlink_throws (device recordingId : string) (w : World)
    (b : option nat) (c : option unit) (code : Z) (name : string) (f : File) :
  NoDup (map fst (tempDir w)) ->
  (forall e, In e (tempDir w) -> endsWith (fst e) ".webm" = true ->
             statThrows (snd e) = false) ->
  List.find (recent (clock w)) (tempDir w) = Some (name, f) ->
  readThrows f = false ->
  unlinkThrows f = true ->
  sendRecording device recordingId (mkHandling w (mkRes code [] None) b c)
  = (Throw ("EPERM: operation not permitted, unlink " ++ name)%string,
     mkHandling w
       (mkRes code (recordingHeaders device recordingId)
          (Some (mkResponse code (recordingHeaders device recordingId)
                   (Buffer (content f)))))
       b c).
Proof.
  intros Hnd Hstat Hfind Hr Hu.
  unfold sendRecording.
  unfold bind at 1. unfold inWorld at 1, Fs.readdirSync, gets.
  cbn [world]. unfold setWorld at 1. cbn [res browser context].
  unfold bind at 1.
  rewrite find_recent_scan;
    [|intros n g Hin; apply lookupFile_present; assumption|exact Hstat].
  cbn [world]. rewrite Hfind. cbn [option_map fst].
  apply find_some in Hfind. destruct Hfind as [Hin Hrec].
  unfold recent in Hrec. cbn [fst snd] in Hrec.
  apply andb_true_iff in Hrec. destruct Hrec as [Hweb _].
  rewrite (endsWith_webm_truthy name Hweb). cbn [negb].
  unfold bind at 1. unfold inWorld at 1. rewrite readFileSync_run.
  cbn [world]. rewrite (lookupFile_present _ _ _ Hnd Hin), Hr.
  unfold setWorld at 1. cbn [res browser context].
  cbv beta iota zeta delta
    [bind resSetHeader resSend gets modify setRes inWorld setWorld
     world res browser context sent statusCode headers throw ret].
  rewrite unlinkSync_run. rewrite (lookupFile_present _ _ _ Hnd Hin), Hu.
  reflexivity.
Qed.

(** X13: when the recording that was found cannot be unlinked, the client
    has already received it with status 200; the file stays in the
    temporary directory, the [catch] block's attempt to answer 500 fails
    because the response is sent, and the handler's promise rejects. *)
Theorem recording_sent_but_not_removed
    (U : string -> bool) (env : Env) (q : Query) (w : World) (s1 : Handling)
    (name : string) (f : File) :
  let url := q_url q in
  let device := deviceParam (q_device q) in
  let duration := durationParam (q_duration q) in
  let recordingId := numToString (clock w) in
  validateInput U url (Some device) = None ->
  record env url device duration (start w) = (Ok tt, s1) ->
  NoDup (map fst (tempDir (world s1))) ->
  (forall e, In e (tempDir (world s1)) -> endsWith (fst e) ".webm" = true ->
             statThrows (snd e) = false) ->
  List.find (recent (clock (world s1))) (tempDir (world s1)) = Some (name, f) ->
  readThrows f = false ->
  unlinkThrows f = true ->
  let out := handle U env ApiScreenrecord q w in
  response (snd out)
  = Some (mkResponse 200 (recordingHeaders device recordingId) (Buffer (content f))) /\
  (exists message, fst out = Throw message) /\
  (exists s2 message,
     sendRecording device recordingId s1 = (Throw message, s2) /\
     tempDir (world s2) = tempDir (world s1) /\
     lookupFile (tempDir (world s2)) name = Some f).
Proof.
  destruct q as [url dev dur], w as [d0 t0 p0 h0].
  cbn [q_url q_device q_duration clock]. cbv zeta.
  intros Hval Hrec Hnd Hstat Hfind Hr Hu.
  destruct (record_ok _ _ _ _ _ _ Hrec) as (Hres & Hbrowser & Hcontext & Hprocs).
  destruct s1 as [w1 r1 b1 c1].
  cbn [res browser context world procs start] in Hres, Hbrowser, Hcontext, Hprocs, Hnd,
    Hstat, Hfind.
  subst r1 b1 c1. cbn [world].
  pose proof (sendRecording_unlink_throws (deviceParam dev) (numToString t0) w1
                (Some (freshPid p0)) (Some tt) 200 name f Hnd Hstat Hfind Hr Hu)
    as Hsend.
  unfold handle, handler, screenrecordHandler.
  cbn [q_url q_device q_duration]. rewrite Hval.
  unfold start in Hrec.
  cbv beta iota zeta delta
    [tryCatchFinally tryFinally tryCatch bind inWorld dateNow gets start setWorld
     world res browser context].
  cbn [clock]. rewrite Hrec. rewrite Hsend.
  unfold recordingHeaders.
  split; [|split].
  - run_all; reflexivity.
  - run_all; eexists; reflexivity.
  - eexists. eexists. split; [reflexivity|]. cbn [world].
    split; [reflexivity|].
    apply find_some in Hfind. destruct Hfind as [Hin _].
    apply lookupFile_present; assumption.
Qed.

Lemma recording_sent_but_not_removed_witness :
  response (snd (handle hasScheme Sample.calm ApiScreenrecord
                   Sample.example Sample.guarded))
  = Some (mkResponse 200 (recordingHeaders "phone" "0") (Buffer [x52; x49])) /\
  (exists message,
     fst (handle hasScheme Sample.calm ApiScreenrecord Sample.example Sample.guarded)
     = Throw message).
Proof.
  set (s1 := snd (record Sample.calm (q_url Sample.example)
                    (deviceParam (q_device Sample.example))
                    (durationParam (q_duration Sample.example))
                    (start Sample.guarded))).
  assert (validateInput hasScheme (q_url Sample.example)
            (Some (deviceParam (q_device Sample.example))) = None) as Hval
    by (vm_compute; reflexivity).
  assert (record Sample.calm (q_url Sample.example)
            (deviceParam (q_device Sample.example))
            (durationParam (q_duration Sample.example))
            (start Sample.guarded) = (Ok tt, s1)) as Hrec
    by (vm_compute; reflexivity).
  assert (NoDup (map fst (tempDir (world s1)))) as Hnd
    by (apply distinctNames_NoDup; vm_compute; reflexivity).
  assert (forall e, In e (tempDir (world s1)) -> endsWith (fst e) ".webm" = true ->
                    statThrows (snd e) = false) as Hstat.
  { intros e Hin _. vm_compute in Hin.
    destruct Hin as [<-|[<-|[]]]; reflexivity. }
  assert (List.find (recent (clock (world s1))) (tempDir (world s1))
          = Some ("held.webm", mkFile 14000 [x52; x49] false false true)) as Hfind
    by (vm_compute; reflexivity).
  pose proof (recording_sent_but_not_removed hasScheme Sample.calm Sample.example
                Sample.guarded s1 "held.webm" _ Hval Hrec Hnd Hstat Hfind
                eq_refl eq_refl) as H.
  cbv zeta in H. destruct H as (Hresp & Hthrow & _).
  split; [|exact Hthrow].
  rewrite Hresp. vm_compute. reflexivity.
Defined.

(** ** More on the recording duration *)

Lemma digitValue_nonneg (c : ascii) (d : Z) : digitValue c = Some d -> 0 <= d.
Proof.
  unfold digitValue.
  destruct ((48 <=? _) && _) eqn:E1.
  { apply andb_true_iff in E1. destruct E1 as [H1 _]. apply Z.leb_le in H1.
    intros H. inversion H. lia. }
  destruct ((97 <=? _) && _) eqn:E2.
  { apply andb_true_iff in E2. destruct E2 as [H2 _]. apply Z.leb_le in H2.
    intros H. inversion H. lia. }
  destruct ((65 <=? _) && _) eqn:E3; [|discriminate].
  apply andb_true_iff in E3. destruct E3 as [H3 _]. apply Z.leb_le in H3.
  intros H. inversion H. lia.
Qed.

Lemma digitsPrefix_nonneg (R : Z) (s : string) (acc : option Z) (m : Z) :
  0 < R ->
  (forall a, acc = Some a -> 0 <= a) ->
  digitsPrefix R s acc = Some m -> 0 <= m.
Proof.
  intros HR. revert acc.
  induction s as [|c s IH]; intros acc Hacc; simpl.
  - intros H. apply Hacc, H.
  - destruct (digitValue c) as [d|] eqn:Ed; [|intros H; apply Hacc, H].
    destruct (d <? R); [|intros H; apply Hacc, H].
    apply IH. intros a Ha. inversion Ha.
    pose proof (digitValue_nonneg c d Ed).
    destruct acc as [a0|]; [pose proof (Hacc a0 eq_refl)|]; nia.
Qed.

Lemma sign_without_minus (s1 : string) :
  (forall r, s1 <> String "-" r) ->
  fst match s1 with
      | String "-" r => (-1, r)
      | String "+" r => (1, r)
      | _ => (1, s1)
      end = 1.
Proof.
  intros H. destruct s1 as [|a r]; [reflexivity|].
  destruct a as [[] [] [] [] [] [] [] []]; try reflexivity.
  exfalso. apply (H r). reflexivity.
Qed.

Lemma radix_positive (s2 : string) :
  0 < fst match s2 with
          | String "0" (String "x" r) => (16, r)
          | String "0" (String "X" r) => (16, r)
          | _ => (10, s2)
          end.
Proof.
  destruct s2 as [|a [|b r]]; try (cbn; lia).
  - destruct a as [[] [] [] [] [] [] [] []]; cbn; lia.
  - destruct a as [[] [] [] [] [] [] [] []]; try (cbn; lia).
    destruct b as [[] [] [] [] [] [] [] []]; cbn; lia.
Qed.

Lemma parseInt_nonneg_without_minus (s : string) (n : Z) :
  (forall r, trimStart s <> String "-" r) ->
  parseInt s = Some n -> 0 <= n.
Proof.
  intros Hminus. unfold parseInt.
  pose proof (sign_without_minus (trimStart s) Hminus) as Hsign.
  destruct (match trimStart s with
            | String "-" r => (-1, r)
            | String "+" r => (1, r)
            | _ => (1, trimStart s)
            end) as [sign s2].
  cbn [fst] in Hsign. subst sign.
  pose proof (radix_positive s2) as HR.
  destruct (match s2 with
            | String "0" (String "x" r) => (16, r)
            | String "0" (String "X" r) => (16, r)
            | _ => (10, s2)
            end) as [R s3].
  cbn [fst] in HR.
  destruct (digitsPrefix R s3 None) as [m|] eqn:Em; [|discriminate].
  intros H. injection H as H.
  pose proof (digitsPrefix_nonneg R s3 None m HR ltac:(discriminate) Em) as Hm.
  rewrite <- H. destruct m; exact Hm.
Qed.

Lemma trimStart_app (s u : string) :
  trimStart s <> "" -> trimStart (s ++ u)%string = (trimStart s ++ u)%string.
Proof.
  induction s as [|c s IH]; simpl; [intros H; contradiction H; reflexivity|].
  destruct (isWhiteSpace c); [exact IH|reflexivity].
Qed.

Lemma digitsPrefix_app (R : Z) (s : string) (c : ascii) (t : string) (acc : option Z) :
  digitValue c = None ->
  digitsPrefix R (s ++ String c t)%string acc = digitsPrefix R s acc.
Proof.
  intros Hc. revert acc. induction s as [|c0 s IH]; intros acc; simpl.
  - rewrite Hc. reflexivity.
  - destruct (digitValue c0) as [d|]; [|reflexivity].
    destruct (d <? R); [apply IH|reflexivity].
Qed.

Lemma sign_app (s1 u : string) :
  s1 <> "" ->
  match (s1 ++ u)%string with
  | String "-" r => (-1, r)
  | String "+" r => (1, r)
  | _ => (1, (s1 ++ u)%string)
  end
  = (fst match s1 with
         | String "-" r => (-1, r)
         | String "+" r => (1, r)
         | _ => (1, s1)
         end,
     (snd match s1 with
          | String "-" r => (-1, r)
          | String "+" r => (1, r)
          | _ => (1, s1)
          end ++ u)%string).
Proof.
  destruct s1 as [|a r]; [intros H; contradiction H; reflexivity|]. intros _.
  destruct a as [[] [] [] [] [] [] [] []]; reflexivity.
Qed.

Lemma radix_app (s2 : string) (c : ascii) (t : string) :
  digitValue c = None ->
  match (s2 ++ String c t)%string with
  | String "0" (String "x" r) => (16, r)
  | String "0" (String "X" r) => (16, r)
  | _ => (10, (s2 ++ String c t)%string)
  end
  = (fst match s2 with
         | String "0" (String "x" r) => (16, r)
         | String "0" (String "X" r) => (16, r)
         | _ => (10, s2)
         end,
     (snd match s2 with
          | String "0" (String "x" r) => (16, r)
          | String "0" (String "X" r) => (16, r)
          | _ => (10, s2)
          end ++ String c t)%string).
Proof.
  intros Hc.
  destruct s2 as [|a [|b r]].
  - destruct c as [[] [] [] [] [] [] [] []]; try reflexivity.
    vm_compute in Hc. discriminate Hc.
  - destruct a as [[] [] [] [] [] [] [] []]; try reflexivity.
    destruct c as [[] [] [] [] [] [] [] []]; try reflexivity;
      vm_compute in Hc; discriminate Hc.
  - destruct a as [[] [] [] [] [] [] [] []]; try reflexivity.
    destruct b as [[] [] [] [] [] [] [] []]; reflexivity.
Qed.

Lemma parseInt_app (s : string) (c : ascii) (t : string) :
  trimStart s <> "" ->
  digitValue c = None ->
  parseInt (s ++ String c t)%string = parseInt s.
Proof.
  intros Hs Hc. unfold parseInt.
  rewrite (trimStart_app s (String c t) Hs).
  rewrite (sign_app (trimStart s) (String c t) Hs).
  destruct (match trimStart s with
            | String "-" r => (-1, r)
            | String "+" r => (1, r)
            | _ => (1, trimStart s)
            end) as [sign s2].
  cbn [fst snd].
  rewrite (radix_app s2 c t Hc).
  destruct (match s2 with
            | String "0" (String "x" r) => (16, r)
            | String "0" (String "X" r) => (16, r)
            | _ => (10, s2)
            end) as [R s3].
  cbn [fst snd].
  rewrite (digitsPrefix_app R s3 c t None Hc). reflexivity.
Qed.

Lemma navigation_targets_validated_address_witness :
  exists s, Some "https://example.com" = Some s /\
            q_url Sample.example = Some s /\ s <> "" /\ hasScheme s = true.
Proof.
  pose proof (navigation_targets_validated_address hasScheme Sample.calm ApiScreenshot
                Sample.example Sample.world0) as H.
  cbv zeta in H. destruct H as [H _].
  assert (In (Goto (Some "https://example.com") gotoOptions)
             (calls Sample.world0
                (snd (handle hasScheme Sample.calm ApiScreenshot
                        Sample.example Sample.world0)))) as Hin.
  { vm_compute. right. right. right. left. reflexivity. }
  destruct (H _ _ Hin) as [Hs _]. exact Hs.
Defined.

Lemma recording_context_options_witness :
  prop (prop (recordVideoOptions "/app/temp" "phone") "recordVideo") "dir"
  = JStr (tempDirPath Sample.calm) /\
  prop (prop (recordVideoOptions "/app/temp" "phone") "recordVideo") "size"
  = (if String.eqb (deviceParam (q_device Sample.example)) "full"
     then size 1920 1080
     else prop deviceConfigs (deviceParam (q_device Sample.example))).
Proof.
  pose proof (recording_context_options hasScheme Sample.calm Sample.example
                Sample.world0) as H.
  cbv zeta in H. destruct H as [H _].
  apply H. vm_compute. right. left. reflexivity.
Defined.

(** ** What the artifact correlation does to the temporary directory *)

Lemma DirFixed_bind {A B} (m : M Handling A) (k : A -> M Handling B) :
  DirFixed m -> (forall a, DirFixed (k a)) -> DirFixed (bind m k).
Proof.
  intros Hm Hk s r s' H. unfold bind in H.
  destruct (m s) as [[a|x] s1] eqn:E.
  - rewrite (Hk a _ _ _ H). apply (Hm _ _ _ E).
  - inversion H; subst. apply (Hm _ _ _ E).
Qed.

Lemma DirFixed_ret {A} (a : A) : DirFixed (ret a).
Proof. intros s r s' H. inversion H. reflexivity. Qed.

Lemma DirFixed_throw {A} (x : string) : DirFixed (@throw Handling A x).
Proof. intros s r s' H. inversion H. reflexivity. Qed.

Lemma DirFixed_find {A} (xs : list A) (p : A -> M Handling bool) :
  (forall x, DirFixed (p x)) -> DirFixed (find xs p).
Proof.
  intros Hp. induction xs as [|x xs IH]; simpl.
  - apply DirFixed_ret.
  - apply DirFixed_bind; [apply Hp|].
    intros [|]; [apply DirFixed_ret|exact IH].
Qed.

Lemma DirFixed_statSync (file : string) : DirFixed (inWorld (Fs.statSync file)).
Proof.
  intros s r s' H. unfold inWorld in H. rewrite statSync_run in H.
  destruct (lookupFile _ _) as [f|]; [destruct (statThrows f)|];
    inversion H; reflexivity.
Qed.

Lemma DirFixed_readFileSync (file : string) :
  DirFixed (inWorld (Fs.readFileSync file)).
Proof.
  intros s r s' H. unfold inWorld in H. rewrite readFileSync_run in H.
  destruct (lookupFile _ _) as [f|]; [destruct (readThrows f)|];
    inversion H; reflexivity.
Qed.

Lemma DirFixed_resSetHeader (name value : string) :
  DirFixed (resSetHeader name value).
Proof.
  intros s r s' H. unfold resSetHeader, bind, gets in H.
  destruct (sent (res s)); inversion H; reflexivity.
Qed.

Lemma DirFixed_resSend (b : Body) : DirFixed (resSend b).
Proof.
  intros s r s' H. unfold resSend, bind, gets in H.
  destruct (sent (res s)); inversion H; reflexivity.
Qed.

Lemma Unlinking_fixed {A} (m : M Handling A) : DirFixed m -> Unlinking m.
Proof. intros H s r s' E. left. apply (H _ _ _ E). Qed.

(** After steps that leave the directory alone, what the rest does to it
    is what the whole does. *)
Lemma Unlinking_after {A B} (P : A -> Prop) (m : M Handling A)
    (k : A -> M Handling B) :
  DirFixed m ->
  (forall s a s1, m s = (Ok a, s1) -> P a) ->
  (forall a, P a -> Unlinking (k a)) ->
  Unlinking (bind m k).
Proof.
  intros Hm HP Hk s r s' H. unfold bind in H.
  destruct (m s) as [[a|x] s1] eqn:E.
  - rewrite <- (Hm _ _ _ E). apply (Hk a (HP _ _ _ E) _ _ _ H).
  - inversion H; subst. left. apply (Hm _ _ _ E).
Qed.

Lemma Unlinking_unlinkSync (file : string) :
  endsWith file ".webm" = true -> Unlinking (inWorld (Fs.unlinkSync file)).
Proof.
  intros Hweb s r s' H. unfold inWorld in H. rewrite unlinkSync_run in H.
  destruct (lookupFile _ _) as [f|]; [destruct (unlinkThrows f)|];
    inversion H; cbn [world setWorld tempDir setTempDir];
    try (left; reflexivity).
  right. exists file. split; [exact Hweb|reflexivity].
Qed.

Lemma Unlinking_sendRecording (device recordingId : string) :
  Unlinking (sendRecording device recordingId).
Proof.
  unfold sendRecording.
  apply (Unlinking_after (fun _ => True)); [|tauto|].
  { intros s r s' H. inversion H. reflexivity. }
  intros files _.
  apply (Unlinking_after (fun videoFile =>
           forall path, videoFile = Some path -> endsWith path ".webm" = true)).
  { apply DirFixed_find. intros file.
    apply DirFixed_bind; [apply DirFixed_statSync|]. intros mt.
    apply DirFixed_bind; [|intros now; apply DirFixed_ret].
    intros s r s' H. inversion H. reflexivity. }
  { intros s [path|] s1 Hfind path' Heq; [|discriminate Heq].
    inversion Heq; subst path'.
    apply find_Some_In in Hfind. apply filter_In in Hfind. tauto. }
  intros videoFile Hweb.
  destruct (negb (truthy videoFile)); [apply Unlinking_fixed, DirFixed_throw|].
  destruct videoFile as [videoPath|]; [|apply Unlinking_fixed, DirFixed_throw].
  apply (Unlinking_after (fun _ => True));
    [apply DirFixed_readFileSync|tauto|]. intros videoBuffer _.
  apply (Unlinking_after (fun _ => True));
    [apply DirFixed_resSetHeader|tauto|]. intros _ _.
  apply (Unlinking_after (fun _ => True));
    [apply DirFixed_resSetHeader|tauto|]. intros _ _.
  apply (Unlinking_after (fun _ => True));
    [apply DirFixed_resSend|tauto|]. intros _ _.
  apply Unlinking_unlinkSync. apply Hweb. reflexivity.
Qed.

(** X17: whatever the state of the temporary directory, the artifact
    correlation of [/api/screenrecord] (lines 123-135) adds nothing to it
    and removes at most one entry, whose name ends in [.webm]: every entry
    that is not a recording is still there afterwards. *)
Theorem correlation_touches_only_a_recording
    (device recordingId : string) (s s' : Handling) (r : Result unit) :
  sendRecording device recordingId s = (r, s') ->
  (tempDir (world s') = tempDir (world s) \/
   exists name,
     endsWith name ".webm" = true /\
     tempDir (world s') = removeFile (tempDir (world s)) name) /\
  (forall e, In e (tempDir (world s')) -> In e (tempDir (world s))) /\
  (forall e, In e (tempDir (world s)) -> endsWith (fst e) ".webm" = false ->
             In e (tempDir (world s'))).
Proof.
  intros H.
  split; [exact (Unlinking_sendRecording device recordingId s r s' H)|].
  split.
  - exact (Shrinking_sendRecording device recordingId s r s' H).
  - exact (Keeping_sendRecording device recordingId s r s' H).
Qed.

Lemma correlation_touches_only_a_recording_witness :
  lookupFile (tempDir (world (snd (sendRecording "phone" "0" Sample.scanning))))
    "clip.webm" = None /\
  In ("notes.txt", Sample.plain 0 [])
     (tempDir (world (snd (sendRecording "phone" "0" Sample.scanning)))).
Proof.
  split; [vm_compute; reflexivity|].
  assert (sendRecording "phone" "0" Sample.scanning
          = (Ok tt, snd (sendRecording "phone" "0" Sample.scanning))) as Hrun
    by (vm_compute; reflexivity).
  destruct (correlation_touches_only_a_recording "phone" "0" Sample.scanning _ _ Hrun)
    as (_ & _ & Hkeep).
  apply (Hkeep ("notes.txt", Sample.plain 0 [])).
  - simpl. right. left. reflexivity.
  - reflexivity.
Defined.

(** ** What the handlers do to the temporary directory *)

Ltac correlate_dir :=
  match goal with
  | |- context [sendRecording ?d ?i ?s] =>
      let E := fresh "E" in
      let F := fresh "F" in
      let D := fresh "Hunlink" in
      destruct (sendRecording d i s) as [[[]|?] [[? ? ? ?] [? ? ?] ? ?]] eqn:E;
      pose proof (Framed_sendRecording d i _ _ _ E) as F;
      pose proof (Unlinking_sendRecording d i _ _ _ E) as D;
      unfold framed in F;
      cbn [browser context world clock procs trace res statusCode sent tempDir]
        in F, D;
      destruct F as (? & ? & ? & ? & ? & ? & ?); subst; clear E
  end.

Ltac branch_dir :=
  first
    [ branch
    | correlate_dir
    | match goal with
      | |- context [if hasHeader ?n ?l then _ else _] =>
          destruct (hasHeader n l) eqn:?
      | |- context [match ?x with Some _ => _ | None => _ end] =>
          is_var x; destruct x
      end ].

Ltac run_dir := run; repeat (branch_dir; run).

Ltac flatten := rewrite <- ?app_assoc; cbn [app].

Ltac unfold_disturbed := cbn [firstn skipn disturbedBy app]; rewrite ?app_nil_r; flatten.

Ltac split_at k :=
  match goal with
  | Hu : ?d = _ \/ (exists name, _ /\ ?d = removeFile _ name) |- _ =>
      exists k, d; unfold_disturbed;
      rewrite <- ?app_assoc in Hu; cbn [app] in Hu;
      split; [exact Hu|reflexivity]
  end.

(** X12: the only thing a capture handler itself does to the temporary
    directory is that [/api/screenrecord] may unlink one [.webm] entry.
    After [/api/screenshot] the directory is what the outside (the engine,
    other requests) made of it while the handler was waiting; after
    [/api/screenrecord] it is that again, but for at most one [.webm] entry
    removed between two of the handler's engine calls. *)
Theorem handlers_touch_only_a_recording
    (U : string -> bool) (env : Env) (q : Query) (w : World) :
  tempDir (world (snd (handle U env ApiScreenshot q w)))
  = disturbedBy env (trace w)
      (calls w (snd (handle U env ApiScreenshot q w))) (tempDir w) /\
  exists k mid,
    (mid = disturbedBy env (trace w)
             (firstn k (calls w (snd (handle U env ApiScreenrecord q w))))
             (tempDir w) \/
     exists name,
       endsWith name ".webm" = true /\
       mid = removeFile
               (disturbedBy env (trace w)
                  (firstn k (calls w (snd (handle U env ApiScreenrecord q w))))
                  (tempDir w))
               name) /\
    tempDir (world (snd (handle U env ApiScreenrecord q w)))
    = disturbedBy env
        (trace w ++ firstn k (calls w (snd (handle U env ApiScreenrecord q w))))
        (skipn k (calls w (snd (handle U env ApiScreenrecord q w)))) mid.
Proof.
  destruct q as [url dev dur], w as [d0 t0 p0 h0].
  cbn [trace].
  split.
  - enter U url dev.
    all: run_handler.
    all: log; dir_of_world; unfold_disturbed; reflexivity.
  - enter U url dev.
    all: run_dir.
    all: log; dir_of_world.
    all: first [ exists 0%nat, d0; unfold_disturbed; split; [left|]; reflexivity
               | split_at 8%nat
               | split_at 9%nat ].
Qed.

(** ** The order of the engine calls *)

Ltac use_answers :=
  repeat match goal with
         | H : rejects _ _ _ = _ |- _ => rewrite H
         end.

Ltac run_script :=
  unfold screenshotScript, recordScript;
  repeat match goal with
         | H : String.eqb _ "full" = _ |- _ => rewrite H
         end;
  cbn [app];
  repeat (progress (cbn [attempt resolves settles andb]; use_answers)).

(** X16: the engine calls of a capture request follow a fixed script
    (viewport before navigation, the settle delay before the capture, the
    context closed only after the recording wait) and stop with the first
    call that rejects.  After them come only the closing calls: on
    [/api/screenrecord] the [catch] block's [context.close()], when a
    context was created and the [try] block failed (a call rejected, or
    the artifact correlation threw), and then [browser.close()] when the
    launch resolved.  A request that fails validation makes no call. *)
Theorem calls_follow_the_script
    (U : string -> bool) (env : Env) (e : Endpoint) (q : Query) (w : World) :
  let log := calls w (snd (handle U env e q w)) in
  let device := deviceParam (q_device q) in
  let pid := freshPid (procs w) in
  let launch := Launch launchOptions in
  let newContext := BrowserNewContext (recordVideoOptions (tempDirPath env) device) in
  match validateInput U (q_url q) (Some device) with
  | Some _ => log = []
  | None =>
      let closeBrowser :=
        match rejects env (trace w) launch with
        | None => [BrowserClose pid]
        | Some _ => []
        end in
      match e with
      | ApiScreenshot =>
          log = attempt env (trace w) (screenshotScript (q_url q) device)
                ++ closeBrowser
      | ApiScreenrecord =>
          let script :=
            recordScript (tempDirPath env) (q_url q) device
              (durationParam (q_duration q)) in
          let closeContext :=
            match rejects env (trace w) launch,
                  rejects env (trace w ++ [launch]) newContext with
            | None, None => [ContextClose]
            | _, _ => []
            end in
          if resolves env (trace w) script
          then log = script
                     ++ match fst (sendRecording device (numToString (clock w))
                                     (snd (record env (q_url q) device
                                             (durationParam (q_duration q))
                                             (start w)))) with
                        | Ok _ => []
                        | Throw _ => [ContextClose]
                        end
                     ++ [BrowserClose pid]
          else log = attempt env (trace w) script ++ closeContext ++ closeBrowser
      end
  end.
Proof.
  destruct q as [url dev dur], w as [d0 t0 p0 h0].
  cbv zeta. cbn [q_url q_device q_duration procs trace clock].
  destruct e; enter U url dev.
  all: run_handler.
  all: run_script.
  all: log.
  all: first [reflexivity | left; reflexivity | right; reflexivity].
Qed.

(** ** The duration value *)

Lemma trimStart_without_minus (s : string) :
  contains "-" s = false -> forall r, trimStart s <> String "-" r.
Proof.
  induction s as [|c s IH]; simpl; intros H r; [discriminate|].
  apply orb_false_iff in H. destruct H as [Hc Hs].
  destruct (isWhiteSpace c); [apply IH, Hs|].
  intros Heq. inversion Heq; subst c. discriminate Hc.
Qed.

(** X14: the effective recording duration lies in [1, 30] seconds for
    every duration value in which no minus sign occurs. *)
Theorem duration_in_range_without_minus (duration : option string) :
  contains "-" (durationParam duration) = false ->
  1 <= recordDuration (durationParam duration) <= 30.
Proof.
  intros Hminus. unfold recordDuration.
  destruct (parseInt (durationParam duration)) as [n|] eqn:E; cbn [orTen]; [|lia].
  pose proof (parseInt_nonneg_without_minus _ _
                (trimStart_without_minus _ Hminus) E) as Hn.
  destruct (n =? 0) eqn:E0; [lia|].
  apply Z.eqb_neq in E0. lia.
Qed.

Lemma duration_in_range_without_minus_witness :
  1 <= recordDuration (durationParam (Some " 0x2A seconds")) <= 30.
Proof.
  apply (duration_in_range_without_minus (Some " 0x2A seconds")).
  reflexivity.
Defined.

Lemma parseInt_Some_trimStart (s : string) :
  parseInt s <> None -> trimStart s <> "".
Proof.
  intros Hp Ht. apply Hp. unfold parseInt. rewrite Ht. reflexivity.
Qed.

(** X15: what follows the number in a duration value is ignored: when the
    part of the value before a character that is neither a letter nor a
    digit parses as a number, the whole value gives the effective duration
    of that part (12.7 is 12, and so is 12,5 or 12 s). *)
Theorem duration_ignores_trailing_text (s : string) (c : ascii) (t : string) :
  parseInt s <> None ->
  digitValue c = None ->
  recordDuration (durationParam (Some (s ++ String c t)%string))
  = recordDuration (durationParam (Some s)).
Proof.
  intros Hs Hc. unfold recordDuration, durationParam.
  rewrite (parseInt_app s c t (parseInt_Some_trimStart s Hs) Hc). reflexivity.
Qed.

Lemma duration_ignores_trailing_text_witness :
  recordDuration (durationParam (Some "12.7")) = recordDuration (durationParam (Some "12")).
Proof.
  apply (duration_ignores_trailing_text "12" "." "7").
  - discriminate.
  - reflexivity.
Defined.
